(** * Moses AI assistant: document ingestion and retrieval-augmented answers

    A shallow embedding of the two core modules of the repository,
    [src/document_processor.py] (class [DocumentProcessor]) and
    [src/rag_system.py] (class [DevSecOpsRAG]), and of the request
    handlers of its two services, [src/api_service.py] and
    [src/simple_api.py], together with the properties of their
    natural-language specification and further properties of the code.

    Conventions of the embedding.
    - A Python [str] is the [string] of the bytes of its UTF-8 encoding:
      an ASCII character is one [ascii], and a character such as the bullet
      that opens the lines of the canned lists is spelled by its two to
      four bytes.  Substring tests, prefixes and splitting at an ASCII
      separator are the same on the bytes as on the characters; the length
      and the slices of a [str] count characters ([len], [slice_to]).
    - Rocq string literals have no escape sequences, so the Python literal
      ["\\n"] (a backslash followed by the letter n) and the Python literal
      ["\n"] (a line feed) are both spelled out below as [esc_n] and [LF].
    - The Python string methods that depend on the Unicode tables
      ([lower], [strip], [title]) and [pathlib.Path.name] are the fields
      of the class [PyStr]; every theorem holds for any implementation of
      them, and [ascii_str] implements them on ASCII text for evaluation.
    - A [dict] is a [gmap], a [set] a [gset], a Python float a binary64
      [float].
    - A call that can raise is a computation in the monad [outcome];
      [try: ... except Exception:] is [try_except]. *)

From Stdlib Require Import String Ascii ZArith Floats.
From stdpp Require Import gmap strings list sorting pretty.

Local Open Scope string_scope.
Local Open Scope Z_scope.

(** ** Python strings *)

Module Py.

(** The line feed, Python ["\n"]. *)
Definition LF : string := String "010"%char EmptyString.

(** Backslash followed by [n], Python ["\\n"]. *)
Definition esc_n : string := String "092"%char (String "n"%char EmptyString).

(** [startswith]: [s.startswith(p)]. *)
Definition startswith (s p : string) : bool := String.prefix p s.

(** [needle in hay] on strings. *)
Fixpoint contains (needle hay : string) : bool :=
  String.prefix needle hay
  || match hay with
     | EmptyString => false
     | String _ hay' => contains needle hay'
     end.

(** [any(keyword in s for keyword in keywords)]. *)
Definition any_in (keywords : list string) (s : string) : bool :=
  existsb (fun keyword => contains keyword s) keywords.

(** In UTF-8 a byte from 128 to 191 continues the character begun before
    it; every other byte begins a character. *)
Definition is_continuation (c : ascii) : bool :=
  let n := nat_of_ascii c in (128 <=? n)%nat && (n <=? 191)%nat.

(** [len(s)]: the number of characters of [s]. *)
Fixpoint len (s : string) : nat :=
  match s with
  | EmptyString => 0%nat
  | String c s' => if is_continuation c then len s' else S (len s')
  end.

(** [s[:n]]: the first [n] characters of [s]. *)
Fixpoint slice_to (n : nat) (s : string) : string :=
  match s with
  | EmptyString => EmptyString
  | String c s' =>
      if is_continuation c then String c (slice_to n s')
      else match n with
           | O => EmptyString
           | S n' => String c (slice_to n' s')
           end
  end.

(** [list(s)]: the characters of [s]. *)
Fixpoint chars (s : string) : list string :=
  match s with
  | EmptyString => []
  | String c s' =>
      let rest := chars s' in
      match s' with
      | String d _ =>
          if is_continuation d
          then match rest with
               | following :: rest' => String c following :: rest'
               | [] => [String c EmptyString]
               end
          else String c EmptyString :: rest
      | EmptyString => String c EmptyString :: rest
      end
  end.

(** [sep.join(parts)]. *)
Fixpoint join (sep : string) (parts : list string) : string :=
  match parts with
  | [] => ""
  | [p] => p
  | p :: rest => p +:+ sep +:+ join sep rest
  end.

(** [s.split(sep)] for a non-empty separator: the pieces between the
    occurrences of [sep], found from left to right.  [skip] counts the
    bytes of an occurrence that are still to be passed over. *)
Fixpoint split_aux (sep : string) (skip : nat) (cur s : string) : list string :=
  match s with
  | EmptyString => [cur]
  | String c s' =>
      match skip with
      | S k => split_aux sep k cur s'
      | O =>
          if String.prefix sep s
          then cur :: split_aux sep (String.length sep - 1) "" s'
          else split_aux sep 0 (cur +:+ String c "") s'
      end
  end.

Definition split (sep s : string) : list string := split_aux sep 0 "" s.

(** [s.replace(old, new)] for [old] and [new] of one ASCII character. *)
Fixpoint replace_char (old new : ascii) (s : string) : string :=
  match s with
  | EmptyString => EmptyString
  | String c s' =>
      String (if Ascii.eqb c old then new else c) (replace_char old new s')
  end.

(** [s.replace(old, new)] for a non-empty [old]: the occurrences of [old],
    found from left to right, are replaced.  [skip] counts the bytes of
    an occurrence that are still to be passed over. *)
Fixpoint replace_aux (old new : string) (skip : nat) (s : string) : string :=
  match s with
  | EmptyString => EmptyString
  | String c s' =>
      match skip with
      | S k => replace_aux old new k s'
      | O =>
          if String.prefix old s
          then new +:+ replace_aux old new (String.length old - 1) s'
          else String c (replace_aux old new 0 s')
      end
  end.

Definition replace (old new s : string) : string := replace_aux old new 0 s.

(** The string methods whose result depends on the Unicode character
    tables or on the path flavour. *)
Class PyStr := {
  lower : string -> string;
  strip : string -> string;
  title : string -> string;
  path_name : string -> string
}.

(** *** The methods of [PyStr] on ASCII text *)

Definition is_upper (c : ascii) : bool :=
  let n := nat_of_ascii c in (65 <=? n)%nat && (n <=? 90)%nat.

Definition is_lower (c : ascii) : bool :=
  let n := nat_of_ascii c in (97 <=? n)%nat && (n <=? 122)%nat.

Definition lower_char (c : ascii) : ascii :=
  if is_upper c then ascii_of_nat (nat_of_ascii c + 32) else c.

Definition upper_char (c : ascii) : ascii :=
  if is_lower c then ascii_of_nat (nat_of_ascii c - 32) else c.

Fixpoint map_chars (f : ascii -> ascii) (s : string) : string :=
  match s with
  | EmptyString => EmptyString
  | String c s' => String (f c) (map_chars f s')
  end.

Definition ascii_lower : string -> string := map_chars lower_char.
Definition ascii_upper : string -> string := map_chars upper_char.

(** The ASCII characters for which [str.isspace] holds: tab, line feed,
    vertical tab, form feed, carriage return, the four separators
    28 to 31, and the space. *)
Definition is_space (c : ascii) : bool :=
  let n := nat_of_ascii c in
  ((9 <=? n)%nat && (n <=? 13)%nat) || ((28 <=? n)%nat && (n <=? 32)%nat).

Fixpoint lstrip (s : string) : string :=
  match s with
  | EmptyString => EmptyString
  | String c s' => if is_space c then lstrip s' else s
  end.

Fixpoint rstrip (s : string) : string :=
  match s with
  | EmptyString => EmptyString
  | String c s' =>
      match rstrip s' with
      | EmptyString => if is_space c then EmptyString else String c EmptyString
      | r => String c r
      end
  end.

Definition ascii_strip (s : string) : string := rstrip (lstrip s).

(** [str.title]: a cased character is upper-cased when the character
    before it is not cased, and lower-cased when it is. *)
Fixpoint title_aux (prev_cased : bool) (s : string) : string :=
  match s with
  | EmptyString => EmptyString
  | String c s' =>
      let cased := is_upper c || is_lower c in
      String (if prev_cased then lower_char c else upper_char c)
             (title_aux cased s')
  end.

Definition ascii_title : string -> string := title_aux false.

(** [PurePosixPath(s).name]: the last component of [s] that is neither
    empty nor a single dot, or the empty string when there is none. *)
Definition ascii_path_name (s : string) : string :=
  List.last (List.filter (fun p => negb (String.eqb p "" || String.eqb p "."))
                         (split "/" s)) "".

Definition ascii_str : PyStr :=
  {| lower := ascii_lower; strip := ascii_strip;
     title := ascii_title; path_name := ascii_path_name |}.

End Py.

Import Py.

(** ** Exceptions *)

Module Exc.

(** The exceptions the modelled code can meet; all of them derive from
    Python's [Exception]. *)
Inductive exn :=
| IndexError
| TypeError
| AttributeError
| ValueError
| StoreError (msg : string).

Inductive outcome (A : Type) :=
| Returned (a : A)
| Raised (e : exn).
Arguments Returned {A} a.
Arguments Raised {A} e.

#[export] Instance outcome_ret : MRet outcome := fun A a => Returned a.

#[export] Instance outcome_bind : MBind outcome := fun A B k c =>
  match c with
  | Returned a => k a
  | Raised e => Raised e
  end.

(** [try: body except Exception as e: handler(e)]. *)
Definition try_except {A} (body : outcome A) (handler : exn -> outcome A)
  : outcome A :=
  match body with
  | Returned a => Returned a
  | Raised e => handler e
  end.

(** [l[i]] for [0 <= i]. *)
Definition index {A} (l : list A) (i : nat) : outcome A :=
  match l !! i with
  | Some x => Returned x
  | None => Raised IndexError
  end.

(** [[f(i) for i in indices]], stopping at the first call that raises. *)
Fixpoint for_each {A B} (f : A -> outcome B) (indices : list A)
  : outcome (list B) :=
  match indices with
  | [] => Returned []
  | i :: rest => x ← f i; xs ← for_each f rest; mret (x :: xs)
  end.

End Exc.

Import Exc.

(** ** The vector store

    The collection of the vector database is a collaborator of the code,
    not part of it.  [Collection] is what the code calls on it; [chroma]
    is a reference collection that holds a list of records, in the order
    in which they were stored. *)

Module Chroma.

(** A metadata value.  The ingestion writes strings ([source], [type],
    [category], ...) and integers ([pages], [paragraphs]), and these are
    the values modelled.  The store also takes floats and booleans, and
    it answers [None] in place of the metadata of a record that was
    stored without any; such records are not written by the ingestion
    and are outside the model. *)
Inductive value :=
| VStr (s : string)
| VInt (n : Z).

#[export] Instance value_eq_dec : EqDecision value.
Proof. solve_decision. Defined.

#[export] Instance value_countable : Countable value.
Proof.
  refine (inj_countable'
    (fun v => match v with VStr s => inl s | VInt n => inr n end)
    (fun x => match x with inl s => VStr s | inr n => VInt n end) _).
  intros []; reflexivity.
Defined.

(** The answer to [collection.query(query_texts=[q], ...,
    include=['documents', 'metadatas', 'distances'])]: one inner list per
    query text. *)
Record QueryResult := {
  documents : list (list string);
  metadatas : list (list (gmap string value));
  distances : list (list float)
}.

(** The calls the code makes on its collection:
    - [coll_query q n flt] is
      [query(query_texts=[q], n_results=n, where={'category': c}, include=...)]
      when [flt = Some c], and the same call without [where] when
      [flt = None];
    - [coll_count] is [count()];
    - [coll_get limit] is [get(limit=limit, include=['metadatas'])['metadatas']]. *)
Record Collection := {
  coll_query : string -> Z -> option string -> outcome QueryResult;
  coll_count : outcome Z;
  coll_get : Z -> outcome (list (gmap string value))
}.

(** A collection whose every call raises [e]. *)
Definition failing (e : exn) : Collection :=
  {| coll_query := fun _ _ _ => Raised e;
     coll_count := Raised e;
     coll_get := fun _ => Raised e |}.

(** A stored chunk. *)
Record record := {
  rec_id : string;
  rec_document : string;
  rec_metadata : gmap string value
}.

Section Reference.

(** The distance between the embeddings of a query text and of a stored
    text. *)
Variable distance : string -> string -> float.

Definition where_matches (flt : option string) (r : record) : bool :=
  match flt with
  | None => true
  | Some c => bool_decide (rec_metadata r !! "category" = Some (VStr c))
  end.

Definition closer (q : string) (r1 r2 : record) : Prop :=
  PrimFloat.leb (distance q (rec_document r1)) (distance q (rec_document r2)) = true.

#[local] Instance closer_dec q r1 r2 : Decision (closer q r1 r2).
Proof. unfold closer. apply _. Defined.

(** Modelled from the spec: the store's [query(vector, k, filter)] returns
    the nearest stored chunks among those whose metadata passes the
    filter, in ascending order of distance.  [nearest] is the [n] records
    nearest to [q] among those that pass the filter, nearest first. *)
Definition nearest (records : list record) (q : string) (n : Z)
    (flt : option string) : list record :=
  take (Z.to_nat n) (merge_sort (closer q) (List.filter (where_matches flt) records)).

(** A query for no result or for a negative number of results is
    refused. *)
Definition chroma_query (records : list record) (q : string) (n : Z)
    (flt : option string) : outcome QueryResult :=
  if n <=? 0 then Raised ValueError
  else
    let top := nearest records q n flt in
    Returned {| documents := [rec_document <$> top];
                metadatas := [rec_metadata <$> top];
                distances := [(fun r => distance q (rec_document r)) <$> top] |}.

(** Modelled from the spec: [count()] is the number of stored chunks and
    [get(limit, fields)] lists the first [limit] of them. *)
Definition chroma (records : list record) : Collection :=
  {| coll_query := chroma_query records;
     coll_count := Returned (Z.of_nat (length records));
     coll_get := fun limit =>
       Returned (rec_metadata <$> take (Z.to_nat limit) records) |}.

End Reference.

End Chroma.

Import Chroma.

(** ** [document_processor.py] *)

Module DocumentProcessor.

Section WithStrings.
Context `{PyStr}.

(** [DocumentProcessor._categorize_document]. *)
Definition _categorize_document (filename : string) : string :=
  let filename_lower := lower filename in
  if any_in ["security"; "sec"; "compliance"; "audit"] filename_lower
  then "security"
  else if any_in ["ci"; "cd"; "pipeline"; "deploy"; "jenkins"; "github-actions"]
                 filename_lower
  then "cicd"
  else if any_in ["kubernetes"; "k8s"; "docker"; "container"] filename_lower
  then "infrastructure"
  else if any_in ["ml"; "ai"; "model"; "training"; "mlops"] filename_lower
  then "ai_engineering"
  else if any_in ["aws"; "cloud"; "cert"; "so3"] filename_lower
  then "cloud_certification"
  else if any_in ["resume"; "cv"] filename_lower
  then "professional_profile"
  else if any_in ["project"; "implementation"] filename_lower
  then "project_documentation"
  else "general".

End WithStrings.

(** A document, and a chunk of one: [langchain.schema.Document]. *)
Record Document := {
  page_content : string;
  metadata : gmap string value
}.

(** The arguments [DocumentProcessor.__init__] gives to
    [RecursiveCharacterTextSplitter]. *)
Record RecursiveCharacterTextSplitter := {
  chunk_size : Z;
  chunk_overlap : Z;
  separators : list string
}.

(** [self.text_splitter]; the separators are written
    ["\\n\\n", "\\n", " ", ""] in the source. *)
Definition text_splitter : RecursiveCharacterTextSplitter :=
  {| chunk_size := 1000;
     chunk_overlap := 200;
     separators := [esc_n +:+ esc_n; esc_n; " "; ""] |}.

(** Modelled from the spec: the Chunker splits on a priority list of
    separators (paragraph break, line break, space, character boundary).
    [pieces sep text] applies one separator to a text, the empty
    separator standing for the character boundary. *)
Definition pieces (sep text : string) : list string :=
  if String.eqb sep "" then chars text else split sep text.

(** Modelled from the spec: the Chunker tries each separator in order,
    falling back to the next only when a unit still exceeds the target
    size after applying the current one.  [split_units] are the units
    this leaves of a text: the pieces that chunks are made of, no chunk
    boundary falling inside one. *)
Fixpoint split_units (target : nat) (separators : list string) (text : string)
  : list string :=
  if (len text <=? target)%nat then [text]
  else
    match separators with
    | [] => [text]
    | sep :: rest => flat_map (split_units target rest) (pieces sep text)
    end.

(** Modelled from the spec: the units a splitter leaves of a text, by
    its target chunk size and its separators. *)
Definition units (splitter : RecursiveCharacterTextSplitter) (text : string)
  : list string :=
  split_units (Z.to_nat (chunk_size splitter)) (separators splitter) text.

(** The arguments of one [collection.add] call. *)
Record AddRequest := {
  add_documents : list string;
  add_metadatas : list (gmap string value);
  add_ids : list string
}.

Section Ingestion.

(** [split_text] of the splitting library: the chunks of a text. *)
Variable split_text : RecursiveCharacterTextSplitter -> string -> list string.

(** The state of the collection, and its [add]. *)
Variable Store : Type.
Variable add : AddRequest -> Store -> outcome Store.

(** [self.text_splitter.split_documents(docs)]: every chunk carries a copy
    of the metadata of the document it comes from. *)
Definition split_documents (docs : list Document) : list Document :=
  flat_map
    (fun doc =>
       map (fun chunk => {| page_content := chunk; metadata := metadata doc |})
           (split_text text_splitter (page_content doc)))
    docs.

(** The chunks of [ingest_documents]: [chunks.extend(doc_chunks)] for
    every document in turn. *)
Definition chunks_of (documents : list Document) : list Document :=
  foldl (fun chunks doc => (chunks ++ split_documents [doc])%list) [] documents.

(** [f"doc_{i}"]. *)
Definition doc_id (i : nat) : string := "doc_" +:+ pretty i.

(** The data [ingest_documents] prepares for the collection. *)
Definition add_request (documents : list Document) : AddRequest :=
  let chunks := chunks_of documents in
  {| add_documents := map page_content chunks;
     add_metadatas := map metadata chunks;
     add_ids := map doc_id (seq 0 (length chunks)) |}.

(** [DocumentProcessor.ingest_documents]: nothing is done for an empty
    list; a failure of [add] is logged and the store is left as it was. *)
Definition ingest_documents (documents : list Document) (store : Store)
  : outcome Store :=
  match documents with
  | [] => Returned store
  | _ =>
      try_except (add (add_request documents) store)
                 (fun _ => Returned store)
  end.

End Ingestion.

(** [repo_url.split('/')[-1].replace('.git', '')], the name
    [process_github_repo] gives to a repository. *)
Definition repo_name_of (repo_url : string) : string :=
  replace ".git" "" (List.last (split "/" repo_url) "").

(** [doc.metadata["repo"] = repo_name; doc.metadata["repo_url"] = repo_url]. *)
Definition tag_repo (repo_name repo_url : string) (doc : Document) : Document :=
  {| page_content := page_content doc;
     metadata := <["repo_url" := VStr repo_url]>
                   (<["repo" := VStr repo_name]> (metadata doc)) |}.

(** The same, followed by [doc.metadata["file_type"] = "configuration"]. *)
Definition tag_configuration (repo_name repo_url : string) (doc : Document)
  : Document :=
  {| page_content := page_content doc;
     metadata := <["file_type" := VStr "configuration"]>
                   (metadata (tag_repo repo_name repo_url doc)) |}.

Section Loading.
Context `{PyStr}.

(** A path is given by its text, [str(file_path)]; [file_path.name] is
    [path_name] of it. *)

(** The decoders of the file formats:
    - [read_pdf] opens a file as a PDF and gives, for each page in page
      order, what [extract_text] does on it;
    - [read_docx] opens a file as a Word document and gives the texts of
      its paragraphs in document order;
    - [read_text] reads a file as UTF-8 text;
    - [markdown_to_text] renders markdown to HTML and returns the text of
      the HTML. *)
Variable read_pdf : string -> outcome (list (outcome string)).
Variable read_docx : string -> outcome (list string).
Variable read_text : string -> outcome string.
Variable markdown_to_text : string -> outcome string.

(** The loop of [process_pdf] over the pages. *)
Fixpoint extract_pages (pages : list (outcome string)) (text_content : string)
  : outcome string :=
  match pages with
  | [] => Returned text_content
  | page :: rest =>
      text ← page;
      extract_pages rest (text_content +:+ text +:+ esc_n)
  end.

(** [DocumentProcessor.process_pdf]. *)
Definition process_pdf (file_path : string) : outcome (list Document) :=
  try_except
    (pages ← read_pdf file_path;
     text_content ← extract_pages pages "";
     mret [ {| page_content := text_content;
               metadata :=
                 {[ "source" := VStr file_path;
                    "type" := VStr "pdf";
                    "category" := VStr (_categorize_document (path_name file_path));
                    "pages" := VInt (Z.of_nat (length pages)) ]} |} ])
    (fun _ => Returned []).

(** The loop of [process_docx] over the paragraphs. *)
Definition paragraphs_text (paragraphs : list string) : string :=
  foldl (fun text_content paragraph => text_content +:+ paragraph +:+ esc_n)
        "" paragraphs.

(** [DocumentProcessor.process_docx]. *)
Definition process_docx (file_path : string) : outcome (list Document) :=
  try_except
    (paragraphs ← read_docx file_path;
     mret [ {| page_content := paragraphs_text paragraphs;
               metadata :=
                 {[ "source" := VStr file_path;
                    "type" := VStr "docx";
                    "category" := VStr (_categorize_document (path_name file_path));
                    "paragraphs" := VInt (Z.of_nat (length paragraphs)) ]} |} ])
    (fun _ => Returned []).

(** [DocumentProcessor.process_markdown]. *)
Definition process_markdown (file_path : string) : outcome (list Document) :=
  try_except
    (md_content ← read_text file_path;
     text_content ← markdown_to_text md_content;
     mret [ {| page_content := text_content;
               metadata :=
                 {[ "source" := VStr file_path;
                    "type" := VStr "markdown";
                    "category" := VStr (_categorize_document (path_name file_path));
                    "original_format" := VStr "markdown" ]} |} ])
    (fun _ => Returned []).

(** [DocumentProcessor.process_text_file]. *)
Definition process_text_file (file_path : string) : outcome (list Document) :=
  try_except
    (content ← read_text file_path;
     mret [ {| page_content := content;
               metadata :=
                 {[ "source" := VStr file_path;
                    "type" := VStr "text";
                    "category" := VStr (_categorize_document (path_name file_path)) ]} |} ])
    (fun _ => Returned []).

(** The dictionary [file_processors] of [process_directory]. *)
Definition file_processors : gmap string (string -> outcome (list Document)) :=
  {[ ".pdf" := process_pdf;
     ".docx" := process_docx;
     ".doc" := process_docx;
     ".md" := process_markdown;
     ".txt" := process_text_file;
     ".yaml" := process_text_file;
     ".yml" := process_text_file;
     ".json" := process_text_file ]}.

(** [file_path.suffix]. *)
Variable suffix : string -> string.

(** The loop of [process_directory] over the entries of the directory
    tree, each a path with what [is_file] says of it. *)
Fixpoint process_entries (entries : list (string * bool))
    (all_documents : list Document) : outcome (list Document) :=
  match entries with
  | [] => Returned all_documents
  | (file_path, is_file) :: rest =>
      match is_file, file_processors !! lower (suffix file_path) with
      | true, Some processor =>
          documents ← processor file_path;
          process_entries rest (all_documents ++ documents)%list
      | _, _ => process_entries rest all_documents
      end
  end.

Variable split_text : RecursiveCharacterTextSplitter -> string -> list string.
Variable Store : Type.
Variable add : AddRequest -> Store -> outcome Store.

(** [DocumentProcessor.process_directory] on a directory that exists or
    not, with the entries [rglob("*")] lists in it. *)
Definition process_directory (directory_exists : bool)
    (entries : list (string * bool)) (store : Store) : outcome Store :=
  if negb directory_exists then Returned store
  else
    all_documents ← process_entries entries [];
    match all_documents with
    | [] => Returned store
    | _ => ingest_documents split_text Store add all_documents store
    end.

(** The repository on disk:
    - [clone_exists] says whether the clone path of a repository name
      exists;
    - [git_pull] updates the clone of a repository name, [git_clone]
      clones a URL under a repository name;
    - [rglob] lists the files of the clone that match a pattern;
    - [st_size] is the size of a file in bytes. *)
Variable clone_exists : string -> bool.
Variable git_pull : string -> outcome unit.
Variable git_clone : string -> string -> outcome unit.
Variable rglob : string -> string -> list string.
Variable st_size : string -> outcome Z.

(** What [process_github_repo] has so far, and the exception that ended
    its [try] block, if any. *)
Definition progress : Type := list Document * option exn.

(** The loop of [process_github_repo] over the markdown files. *)
Fixpoint markdown_files_loop (repo_name repo_url : string)
    (files : list string) (documents : list Document) : progress :=
  match files with
  | [] => (documents, None)
  | file_path :: rest =>
      match process_markdown file_path with
      | Raised e => (documents, Some e)
      | Returned docs =>
          markdown_files_loop repo_name repo_url rest
            (documents ++ (tag_repo repo_name repo_url <$> docs))%list
      end
  end.

(** The loop over the files of one configuration extension. *)
Fixpoint configuration_files_loop (repo_name repo_url : string)
    (files : list string) (documents : list Document) : progress :=
  match files with
  | [] => (documents, None)
  | file_path :: rest =>
      match st_size file_path with
      | Raised e => (documents, Some e)
      | Returned size =>
          if size <? 50000
          then
            match process_text_file file_path with
            | Raised e => (documents, Some e)
            | Returned docs =>
                configuration_files_loop repo_name repo_url rest
                  (documents ++ (tag_configuration repo_name repo_url <$> docs))%list
            end
          else configuration_files_loop repo_name repo_url rest documents
      end
  end.

(** The loop over [config_extensions]. *)
Fixpoint configuration_extensions_loop (repo_name repo_url : string)
    (extensions : list string) (documents : list Document) : progress :=
  match extensions with
  | [] => (documents, None)
  | ext :: rest =>
      match configuration_files_loop repo_name repo_url
              (rglob repo_name ("*" +:+ ext)) documents with
      | (documents, Some e) => (documents, Some e)
      | (documents, None) =>
          configuration_extensions_loop repo_name repo_url rest documents
      end
  end.

(** [DocumentProcessor.process_github_repo]: the documents gathered when
    the [try] block ends, normally or not. *)
Definition github_repo_progress (repo_url : string) : progress :=
  let repo_name := repo_name_of repo_url in
  match (if clone_exists repo_name then git_pull repo_name
         else git_clone repo_url repo_name) with
  | Raised e => ([], Some e)
  | Returned _ =>
      match markdown_files_loop repo_name repo_url
              (rglob repo_name "*.md") [] with
      | (documents, Some e) => (documents, Some e)
      | (documents, None) =>
          configuration_extensions_loop repo_name repo_url
            [".yml"; ".yaml"; ".json"; ".toml"; ".cfg"] documents
      end
  end.

Definition process_github_repo (repo_url : string) : list Document :=
  fst (github_repo_progress repo_url).

End Loading.

(** [DocumentProcessor.get_collection_stats]: the value under
    [total_chunks]. *)
Definition get_collection_stats (collection : Collection) : outcome Z :=
  try_except (coll_count collection) (fun _ => Returned 0).

End DocumentProcessor.


(** ** [rag_system.py] *)

Module Rag.

(** One retrieved chunk: the dictionaries built by [retrieve_context] and
    [search_by_category]. *)
Record RetrievedContext := {
  content : string;
  metadata : gmap string value;
  relevance_score : float
}.

(** The double quote character, as a string. *)
Definition dquote : string := String "034"%char EmptyString.

(** What [generate_response] answers when there is no context. *)
Definition no_information_answer : string :=
  "I don't have specific information about that topic in Moses Omondi's knowledge base. Please try a more specific question about DevSecOps, CI/CD security, AWS, Kubernetes, or AI/ML engineering.".

(** What [prepare_context_string] returns for no contexts. *)
Definition no_context_found : string :=
  "No relevant context found in Moses's knowledge base.".

(** The bullet lists of [_generate_recommendations]. *)
Definition kubernetes_recommendations : string :=
  "• Implement RBAC and network policies" +:+ LF +:+
  "• Use Pod Security Standards" +:+ LF +:+
  "• Regular security scanning of container images" +:+ LF +:+
  "• Monitor cluster activity with audit logging".

Definition cicd_recommendations : string :=
  "• Integrate SAST/DAST tools in pipeline" +:+ LF +:+
  "• Use secure secrets management" +:+ LF +:+
  "• Implement branch protection rules" +:+ LF +:+
  "• Automated security testing at each stage".

Definition cloud_recommendations : string :=
  "• Follow AWS Well-Architected Security Pillar" +:+ LF +:+
  "• Implement least privilege IAM policies" +:+ LF +:+
  "• Enable CloudTrail and GuardDuty" +:+ LF +:+
  "• Use AWS Config for compliance monitoring".

Definition ai_recommendations : string :=
  "• Implement MLSecOps practices" +:+ LF +:+
  "• Secure model training pipelines" +:+ LF +:+
  "• Monitor for model drift and bias" +:+ LF +:+
  "• Protect sensitive training data".

Definition general_recommendations : string :=
  "• Follow security-first development practices" +:+ LF +:+
  "• Implement proper monitoring and logging" +:+ LF +:+
  "• Regular security assessments and updates" +:+ LF +:+
  "• Documentation and knowledge sharing".

(** [sorted(values)]: strings in the order of their characters
    ([String.le] is the lexicographic order), integers in their order;
    comparing a string with an integer raises. *)
Definition as_strings (values : list value) : option (list string) :=
  mapM (fun v => match v with VStr s => Some s | VInt _ => None end) values.

Definition as_ints (values : list value) : option (list Z) :=
  mapM (fun v => match v with VInt n => Some n | VStr _ => None end) values.

Definition sorted (values : list value) : outcome (list value) :=
  match as_strings values, as_ints values with
  | Some strs, _ => Returned (VStr <$> merge_sort String.le strs)
  | None, Some ints => Returned (VInt <$> merge_sort Z.le ints)
  | None, None => Raised TypeError
  end.

(** The result of [get_knowledge_base_info]. *)
Record KnowledgeBaseInfo := {
  total_documents : Z;
  categories : list value;
  status : string;
  error : option exn
}.

(** The result of [query], without its [processing_time], which is read
    off the clock. *)
Record QueryAnswer := {
  answer : string;
  contexts : list RetrievedContext;
  sources_used : nat;
  query_text : string
}.

(** The text [get_expertise_summary] starts from. *)
Definition expertise_text : string :=
  "Moses Omondi is a DevSecOps and AI Engineering expert with comprehensive knowledge in:

🛡️ **DevSecOps & Security:**
- CI/CD pipeline security and automation
- Infrastructure security and compliance
- Security scanning and vulnerability management
- Zero-trust architecture implementation

☁️ **Cloud & Infrastructure:**
- AWS security and SO3 compliance
- Kubernetes security and best practices
- Container security and orchestration
- Infrastructure as Code (IaC) security

🤖 **AI/ML Engineering:**
- MLOps and MLSecOps implementation
- Model security and governance
- AI pipeline automation
- Machine learning infrastructure

🔧 **Technical Implementation:**
- Secure software development lifecycle
- Automated security testing
- Compliance frameworks and auditing
- Security monitoring and incident response
".

Section WithCollection.
Context `{PyStr}.

(** [self.collection]. *)
Variable collection : Collection.

(** The dictionary built for the [i]-th result of the first query text. *)
Definition context_at (results : QueryResult) (i : nat) : outcome RetrievedContext :=
  docs ← index (documents results) 0;
  doc ← index docs i;
  metas ← index (metadatas results) 0;
  meta ← index metas i;
  dists ← index (distances results) 0;
  dist ← index dists i;
  mret {| content := doc; metadata := meta;
          relevance_score := (1 - dist)%float |}.

(** [DevSecOpsRAG.retrieve_context]. *)
Definition retrieve_context (query : string) (n_results : Z)
  : outcome (list RetrievedContext) :=
  try_except
    (results ← coll_query collection query n_results None;
     match documents results with
     | [] => mret []
     | [] :: _ => mret []
     | docs :: _ => for_each (context_at results) (seq 0 (length docs))
     end)
    (fun _ => Returned []).

(** [DevSecOpsRAG.search_by_category]. *)
Definition search_by_category (query category : string) (n_results : Z)
  : outcome (list RetrievedContext) :=
  try_except
    (results ← coll_query collection query (n_results * 2) (Some category);
     match documents results with
     | [] => mret []
     | [] :: _ => mret []
     | docs :: _ =>
         for_each (context_at results)
                  (seq 0 (Z.to_nat (Z.min n_results (Z.of_nat (length docs)))))
     end)
    (fun _ => Returned []).

(** The two lines [prepare_context_string] appends for the [i]-th context.
    [str.replace] is not defined on an integer, and [Path] does not take
    one. *)
Definition source_block (i : nat) (ctx : RetrievedContext) : outcome string :=
  category ← match default (VStr "general") (metadata ctx !! "category") with
             | VStr s => Returned (title (replace_char "_" " " s))
             | VInt _ => Raised AttributeError
             end;
  source ← match default (VStr "Unknown") (metadata ctx !! "source") with
           | VStr s => Returned (path_name s)
           | VInt _ => Raised TypeError
           end;
  mret ("[Source " +:+ pretty i +:+ " - " +:+ category +:+ "] ("
        +:+ source +:+ "):" +:+ esc_n
        +:+ content ctx +:+ esc_n +:+ esc_n).

(** The loop [for i, ctx in enumerate(contexts, 1)]. *)
Fixpoint append_sources (i : nat) (contexts : list RetrievedContext)
    (context_string : string) : outcome string :=
  match contexts with
  | [] => Returned context_string
  | ctx :: rest =>
      block ← source_block i ctx;
      append_sources (S i) rest (context_string +:+ block)
  end.

(** [DevSecOpsRAG.prepare_context_string]. *)
Definition prepare_context_string (contexts : list RetrievedContext) : outcome string :=
  match contexts with
  | [] => Returned no_context_found
  | _ =>
      append_sources 1 contexts
        ("RELEVANT KNOWLEDGE FROM MOSES'S EXPERTISE:" +:+ esc_n +:+ esc_n)
  end.

(** The loop of [_extract_key_points], which stops at the third point. *)
Fixpoint key_points_loop (lines key_points : list string) : list string :=
  match lines with
  | [] => key_points
  | line :: rest =>
      if negb (String.eqb (strip line) "")
         && negb (startswith line "RELEVANT KNOWLEDGE")
         && negb (startswith line "[Source")
         && any_in ["security"; "implement"; "deploy"; "configure"; "best practice"]
                   (lower line)
      then
        let key_points :=
          (key_points ++ ["• " +:+ slice_to 200 (strip line)])%list in
        if (3 <=? length key_points)%nat then key_points
        else key_points_loop rest key_points
      else key_points_loop rest key_points
  end.

(** [DevSecOpsRAG._extract_key_points]. *)
Definition _extract_key_points (context : string) : string :=
  match key_points_loop (split esc_n context) [] with
  | [] => "• Relevant technical documentation and implementation guides available"
  | key_points => join LF key_points
  end.

(** [DevSecOpsRAG._generate_recommendations]. *)
Definition _generate_recommendations (query context : string) : string :=
  let query_lower := lower query in
  if contains "kubernetes" query_lower || contains "k8s" query_lower
  then kubernetes_recommendations
  else if contains "ci/cd" query_lower || contains "pipeline" query_lower
  then cicd_recommendations
  else if contains "aws" query_lower || contains "cloud" query_lower
  then cloud_recommendations
  else if contains "ai" query_lower || contains "ml" query_lower
          || contains "model" query_lower
  then ai_recommendations
  else general_recommendations.

(** The loop of [_extract_security_points], which stops at the second
    point. *)
Fixpoint security_points_loop (lines security_points : list string)
  : list string :=
  match lines with
  | [] => security_points
  | line :: rest =>
      let clean_line := strip line in
      if any_in ["security"; "secure"; "vulnerability"; "threat"; "risk";
                 "compliance"; "audit"] (lower line)
         && negb (String.eqb clean_line "")
         && negb (startswith clean_line "[Source")
      then
        let security_points :=
          (security_points ++ ["• " +:+ slice_to 150 clean_line])%list in
        if (2 <=? length security_points)%nat then security_points
        else security_points_loop rest security_points
      else security_points_loop rest security_points
  end.

(** [DevSecOpsRAG._extract_security_points]. *)
Definition _extract_security_points (context : string) : string :=
  match security_points_loop (split esc_n context) [] with
  | [] => "• Always prioritize security in implementation" +:+ LF +:+
          "• Regular security reviews and updates recommended"
  | security_points => join LF security_points
  end.

(** The answer [generate_response] builds from a context string that
    holds context. *)
Definition structured_response (query context : string) : string :=
  strip
    ("Based on Moses Omondi's expertise, here's what I can tell you about your question: "
     +:+ dquote +:+ query +:+ dquote +:+ LF +:+ LF
     +:+ "**Key Information:**" +:+ LF
     +:+ _extract_key_points context +:+ LF +:+ LF
     +:+ "**Practical Recommendations:**" +:+ LF
     +:+ _generate_recommendations query context +:+ LF +:+ LF
     +:+ "**Security Considerations:**" +:+ LF
     +:+ _extract_security_points context +:+ LF +:+ LF
     +:+ "*This response is based on Moses Omondi's documented experience in DevSecOps, AI Engineering, and Cloud Architecture.*"
     +:+ LF).

(** [DevSecOpsRAG.generate_response].  The body of its [try] calls only
    string operations, none of which raises, so the handler is never
    entered. *)
Definition generate_response (query context : string) : string :=
  if contains "No relevant context" context
  then no_information_answer
  else structured_response query context.

(** [DevSecOpsRAG.query]. *)
Definition query (question : string) (n_contexts : Z) : outcome QueryAnswer :=
  contexts ← retrieve_context question n_contexts;
  context_string ← prepare_context_string contexts;
  let answer := generate_response question context_string in
  mret {| answer := answer; contexts := contexts;
          sources_used := length contexts; query_text := question |}.

(** The loop over the sampled metadata in [get_knowledge_base_info]. *)
Definition sample_categories (sample : list (gmap string value)) : gset value :=
  foldl (fun categories metadata =>
           match metadata !! "category" with
           | Some category => {[category]} ∪ categories
           | None => categories
           end)
        ∅ sample.

(** [DevSecOpsRAG.get_knowledge_base_info]. *)
Definition get_knowledge_base_info : outcome KnowledgeBaseInfo :=
  try_except
    (count ← coll_count collection;
     sample ← coll_get collection 100;
     categories ← sorted (elements (sample_categories sample));
     mret {| total_documents := count; categories := categories;
             status := "active"; error := None |})
    (fun e => Returned {| total_documents := 0; categories := [];
                          status := "error"; error := Some e |}).

(** [DevSecOpsRAG.get_expertise_summary]; the line it appends starts with
    a backslash and the letter n. *)
Definition get_expertise_summary : outcome string :=
  categories_info ← get_knowledge_base_info;
  let summary := expertise_text in
  if 0 <? total_documents categories_info
  then mret (summary +:+ esc_n +:+ "📚 **Knowledge Base:** "
             +:+ pretty (total_documents categories_info)
             +:+ " documented experiences and implementations")
  else mret summary.

End WithCollection.

End Rag.

(** ** The HTTP boundary *)

Module Http.

(** What a request handler does: it returns a response body, or raises
    [HTTPException(status_code, detail)]. *)
Inductive response (A : Type) :=
| Ok (body : A)
| HTTPException (status_code : Z) (detail : string).
Arguments Ok {A} body.
Arguments HTTPException {A} status_code detail.

(** The request model of both services. *)
Record QueryRequest := {
  question : string;
  context_count : Z;
  include_sources : bool
}.

End Http.

(** ** [api_service.py] *)

Module Api.

Import Http.

Record Source := {
  source_content : string;
  source_metadata : gmap string value;
  source_relevance_score : float
}.

(** [QueryResponse], without its [timestamp], which is read off the
    clock. *)
Record QueryResponse := {
  answer : string;
  processing_time : float;
  sources_used : nat;
  sources : option (list Source)
}.

Record HealthResponse := {
  status : string;
  version : string;
  knowledge_base_status : string;
  total_documents : Z
}.

(** The global variables of the module; [rag_system] is [None] until the
    startup event has run, and is given here by its collection. *)
Record Globals := {
  query_count : Z;
  total_response_time : float;
  rag_system : option Collection
}.

(** The [Source] built for one context of a query result. *)
Definition source_of (ctx : Rag.RetrievedContext) : Source :=
  {| source_content :=
       if (500 <? len (Rag.content ctx))%nat
       then slice_to 500 (Rag.content ctx) +:+ "..."
       else Rag.content ctx;
     source_metadata := Rag.metadata ctx;
     source_relevance_score := Rag.relevance_score ctx |}.

(** The prefixes of the three specialised endpoints. *)
Definition technical_prefix : string :=
  "From a technical implementation perspective: ".
Definition career_prefix : string :=
  "Regarding Moses's professional background and career: ".
Definition projects_prefix : string :=
  "About Moses's projects and implementations: ".

Section Handlers.
Context `{PyStr}.

(** [str(e)] of an exception. *)
Variable exn_str : exn -> string.

(** [query_assistant].  [elapsed] is the processing time the query
    measures on the clock when it succeeds. *)
Definition query_assistant (elapsed : float) (request : QueryRequest)
    (globals : Globals) : response QueryResponse * Globals :=
  match rag_system globals with
  | None => (HTTPException 503 "RAG system not initialized", globals)
  | Some collection =>
      if String.eqb (strip (question request)) ""
      then (HTTPException 400 "Question cannot be empty", globals)
      else
        match Rag.query collection (question request) (context_count request) with
        | Raised e =>
            (HTTPException 500 ("Query processing failed: " +:+ exn_str e),
             globals)
        | Returned result =>
            (Ok {| answer := Rag.answer result;
                   processing_time := elapsed;
                   sources_used := Rag.sources_used result;
                   sources :=
                     if include_sources request
                     then Some (source_of <$> Rag.contexts result)
                     else None |},
             {| query_count := query_count globals + 1;
                total_response_time :=
                  (total_response_time globals + elapsed)%float;
                rag_system := rag_system globals |})
        end
  end.

(** [request.question = enhanced_question]. *)
Definition with_prefix (prefix : string) (request : QueryRequest)
  : QueryRequest :=
  {| question := prefix +:+ question request;
     context_count := context_count request;
     include_sources := include_sources request |}.

(** [query_technical], [query_career] and [query_projects]. *)
Definition query_technical (elapsed : float) (request : QueryRequest)
  : Globals -> response QueryResponse * Globals :=
  query_assistant elapsed (with_prefix technical_prefix request).

Definition query_career (elapsed : float) (request : QueryRequest)
  : Globals -> response QueryResponse * Globals :=
  query_assistant elapsed (with_prefix career_prefix request).

Definition query_projects (elapsed : float) (request : QueryRequest)
  : Globals -> response QueryResponse * Globals :=
  query_assistant elapsed (with_prefix projects_prefix request).

(** [health_check]. *)
Definition health_check (globals : Globals) : response HealthResponse :=
  match rag_system globals with
  | None => HTTPException 503 "RAG system not initialized"
  | Some collection =>
      match Rag.get_knowledge_base_info collection with
      | Returned knowledge_info =>
          Ok {| status := "healthy"; version := "1.0.0";
                knowledge_base_status := "active";
                total_documents := Rag.total_documents knowledge_info |}
      | Raised e => HTTPException 500 ("Health check failed: " +:+ exn_str e)
      end
  end.

End Handlers.

End Api.

(** ** [simple_api.py] *)

Module SimpleApi.

(** The canned answers of [generate_expert_response]. *)
Definition devsecops_answer : string :=
  "Based on Moses Omondi's DevSecOps expertise:

**Key Security Practices:**
• Implement SAST/DAST scanning in CI/CD pipelines
• Use secure secrets management (HashiCorp Vault, AWS Secrets Manager)
• Implement branch protection rules and code review processes
• Automated security testing at each pipeline stage

**Recommendations:**
• Shift-left security approach - integrate security early in development
• Use Infrastructure as Code (IaC) with security scanning
• Implement zero-trust architecture principles
• Regular vulnerability assessments and penetration testing

**Tools & Technologies:**
• SonarQube, Snyk, OWASP ZAP for security scanning
• Jenkins, GitLab CI, GitHub Actions for pipeline automation
• Docker security scanning with Trivy or Clair
• Kubernetes security with Pod Security Standards

*This response reflects Moses Omondi's experience in DevSecOps and security engineering.*".

Definition kubernetes_answer : string :=
  "Based on Moses Omondi's Kubernetes security expertise:

**Security Best Practices:**
• Implement Role-Based Access Control (RBAC)
• Use Pod Security Standards and Network Policies
• Regular container image scanning for vulnerabilities
• Enable audit logging and monitoring

**Container Security:**
• Use minimal base images and multi-stage builds
• Run containers as non-root users
• Implement resource limits and requests
• Regular security updates and patching

**Cluster Hardening:**
• Secure etcd with encryption at rest
• Use admission controllers for policy enforcement
• Network segmentation with Calico or Cilium
• Regular backup and disaster recovery testing

*Based on Moses Omondi's experience with Kubernetes security and orchestration.*".

Definition cloud_answer : string :=
  "Based on Moses Omondi's AWS and Cloud Architecture expertise:

**AWS Security Best Practices:**
• Follow AWS Well-Architected Security Pillar
• Implement least privilege IAM policies
• Enable CloudTrail, GuardDuty, and Config
• Use AWS Security Hub for centralized monitoring

**Infrastructure Security:**
• Infrastructure as Code with CloudFormation/CDK
• VPC security with proper network segmentation  
• Encrypt data at rest and in transit
• Regular security assessments and compliance audits

**Cost Optimization:**
• Use serverless architecture (Lambda, API Gateway)
• Implement auto-scaling and right-sizing
• Reserved instances for predictable workloads
• Regular cost monitoring and optimization

*This reflects Moses Omondi's experience with AWS security and cloud architecture.*".

Definition ai_answer : string :=
  "Based on Moses Omondi's AI/ML Engineering expertise:

**MLSecOps Practices:**
• Secure ML pipeline development and deployment
• Model governance and version control
• Data privacy and protection in ML workflows
• Automated model testing and validation

**AI Security:**
• Protect against adversarial attacks
• Implement model explainability and transparency
• Secure data preprocessing and feature engineering
• Monitor for model drift and bias

**Technical Implementation:**
• PyTorch and TensorFlow for model development
• MLflow for experiment tracking and model registry
• Kubernetes for scalable ML workload orchestration
• CI/CD pipelines for automated model deployment

*Based on Moses Omondi's experience in AI/ML engineering and MLSecOps.*".

(** The general answer: the text before the quoted question and the text
    after it. *)
Definition general_answer_head : string :=
  "Based on Moses Omondi's technical expertise, here's guidance on: ".

Definition general_answer_tail : string :=
  "

**Professional Background:**
Moses Omondi is a DevSecOps engineer and AI/ML specialist with expertise in:
• Secure software development lifecycle
• Cloud architecture and security (AWS, Azure)
• Full-stack development (MERN, Spring Boot)
• AI/ML pipeline development and deployment

**General Recommendations:**
• Security-first approach in all implementations
• Automated testing and continuous integration
• Documentation and knowledge sharing
• Regular security reviews and updates

**Technologies & Tools:**
• Programming: Python, Java, JavaScript, TypeScript
• Cloud: AWS, Docker, Kubernetes
• AI/ML: PyTorch, TensorFlow, MLflow
• Security: SAST/DAST tools, vulnerability scanning

For more specific guidance, please ask about DevSecOps, AWS, Kubernetes, or AI/ML topics.

*This response is based on Moses Omondi's documented professional experience.*".

Section WithStrings.
Context `{PyStr}.

(** [generate_expert_response]. *)
Definition generate_expert_response (question : string) : string :=
  let question_lower := lower question in
  if any_in ["devsecops"; "ci/cd"; "pipeline"; "security"] question_lower
  then devsecops_answer
  else if any_in ["kubernetes"; "k8s"; "container"] question_lower
  then kubernetes_answer
  else if any_in ["aws"; "cloud"; "lambda"; "ec2"] question_lower
  then cloud_answer
  else if any_in ["ai"; "ml"; "machine learning"; "model"] question_lower
  then ai_answer
  else general_answer_head +:+ Rag.dquote +:+ question +:+ Rag.dquote
       +:+ general_answer_tail.

(** [query_assistant] of the minimal service; the processing time and the
    timestamp of its response are read off the clock and left out. *)
Definition query_assistant (request : Http.QueryRequest)
  : Http.response (string * nat * string) :=
  if String.eqb (strip (Http.question request)) ""
  then Http.HTTPException 400 "Question cannot be empty"
  else Http.Ok (generate_expert_response (Http.question request), 1%nat,
                Http.question request).

End WithStrings.

End SimpleApi.

(** * Properties *)

(** ** Facts about the string operations *)

Module PyFacts.

Lemma app_cons (c : ascii) (s t : string) :
  String c s +:+ t = String c (s +:+ t).
Proof. reflexivity. Qed.

Lemma prefix_app (p s : string) :
  String.prefix p s = true <-> exists t, s = p +:+ t.
Proof.
  revert s. induction p as [|c p IH]; intros s; simpl.
  - destruct s; split; eauto.
  - destruct s as [|d s].
    + split; [discriminate | intros [t Ht]; discriminate].
    + cbn [String.prefix]. setoid_rewrite app_cons.
      destruct (ascii_dec c d) as [->|Hne].
      * rewrite IH. split; intros [t Ht]; exists t; congruence.
      * split; [discriminate | intros [t Ht]; congruence].
Qed.

(** [contains] is the substring test. *)
Lemma contains_app (needle hay : string) :
  contains needle hay = true <-> exists a b, hay = a +:+ needle +:+ b.
Proof.
  induction hay as [|c hay IH]; cbn [contains].
  - rewrite orb_false_r, prefix_app. split.
    + intros [t Ht]. by exists "", t.
    + intros [a [b Hab]]. destruct a; [by exists b | discriminate].
  - rewrite orb_true_iff, IH, prefix_app. split.
    + intros [[t Ht] | [a [b Hab]]].
      * by exists "", t.
      * exists (String c a), b. by rewrite app_cons, Hab.
    + intros [a [b Hab]]. destruct a as [|d a].
      * left. by exists b.
      * right. exists a, b. rewrite app_cons in Hab. congruence.
Qed.

Lemma string_app_assoc (a b c : string) : (a +:+ b) +:+ c = a +:+ (b +:+ c).
Proof.
  induction a as [|x a IH]; [done|]. by rewrite !app_cons, IH.
Qed.

Lemma contains_inside (needle a s b : string) :
  contains needle s = true -> contains needle (a +:+ s +:+ b) = true.
Proof.
  rewrite !contains_app. intros [x [y ->]].
  exists (a +:+ x), (y +:+ b). by rewrite !string_app_assoc.
Qed.

Lemma any_in_exists (keywords : list string) (s : string) :
  any_in keywords s = true <->
  exists keyword, In keyword keywords /\ contains keyword s = true.
Proof. unfold any_in. apply existsb_exists. Qed.

Lemma lower_upper_char (c : ascii) : lower_char (upper_char c) = lower_char c.
Proof. destruct c as [[] [] [] [] [] [] [] []]; reflexivity. Qed.

(** Lower-casing ASCII text forgets whether it was upper-cased before. *)
Lemma ascii_lower_upper (s : string) : ascii_lower (ascii_upper s) = ascii_lower s.
Proof.
  induction s as [|c s IH]; simpl; [done|].
  unfold ascii_lower, ascii_upper in *. simpl. by rewrite lower_upper_char, IH.
Qed.

Lemma app_empty_r (s : string) : s +:+ "" = s.
Proof. induction s as [|c s IH]; [done|]. by rewrite app_cons, IH. Qed.

(** Stripping ASCII text that begins with a character other than white
    space keeps that character in front. *)
Lemma ascii_strip_head (c : ascii) (s : string) :
  is_space c = false -> exists r, ascii_strip (String c s) = String c r.
Proof.
  intros Hc. unfold ascii_strip. cbn [lstrip]. rewrite Hc. cbn [rstrip].
  rewrite Hc. destruct (rstrip s); eauto.
Qed.

Lemma string_length_app (s t : string) :
  String.length (s +:+ t) = (String.length s + String.length t)%nat.
Proof.
  induction s as [|c s IH]; [done|]. rewrite app_cons. simpl. by rewrite IH.
Qed.

(** *** Lengths and slices, in characters *)

Lemma len_app (s t : string) : len (s +:+ t) = (len s + len t)%nat.
Proof.
  induction s as [|c s IH]; [done|]. rewrite app_cons. cbn [len].
  destruct (is_continuation c); lia.
Qed.

(** A slice has the characters asked for, or all there are. *)
Lemma len_slice_to (n : nat) (s : string) :
  len (slice_to n s) = (n `min` len s)%nat.
Proof.
  revert n. induction s as [|c s IH]; intros n; cbn [slice_to len]; [lia|].
  destruct (is_continuation c) eqn:Hc.
  - cbn [len]. by rewrite Hc.
  - destruct n as [|n]; cbn [len]; [lia|]. rewrite Hc, IH. lia.
Qed.

(** A text that has no more characters than asked for is its own slice. *)
Lemma slice_to_whole (n : nat) (s : string) :
  (len s <= n)%nat -> slice_to n s = s.
Proof.
  revert n. induction s as [|c s IH]; intros n; cbn [slice_to len]; [done|].
  destruct (is_continuation c).
  - intros Hlen. by rewrite IH.
  - destruct n as [|n]; [lia|]. intros Hlen. rewrite IH; [done | lia].
Qed.

(** A slice is where the text begins. *)
Lemma slice_to_prefix (n : nat) (s : string) :
  exists rest, s = slice_to n s +:+ rest.
Proof.
  revert n. induction s as [|c s IH]; intros n; cbn [slice_to]; [by exists ""|].
  destruct (is_continuation c).
  - destruct (IH n) as [rest Hrest]. exists rest. by rewrite app_cons, <- Hrest.
  - destruct n as [|n]; [by eexists|].
    destruct (IH n) as [rest Hrest]. exists rest. by rewrite app_cons, <- Hrest.
Qed.

(** Characters are counted, not bytes: the bullet has three bytes and
    the accented letter two. *)
Example slice_to_counts_characters :
  slice_to 2 "•é•" = "•é" /\ len "•é•" = 3%nat /\ String.length "•é•" = 8%nat
  /\ chars "•é•" = ["•"; "é"; "•"].
Proof. repeat split. Qed.

(** *** Splitting *)

(** A text in which the separator does not occur is not split. *)
Lemma split_absent (sep s : string) :
  contains sep s = false -> split sep s = [s].
Proof.
  unfold split.
  assert (forall cur, contains sep s = false ->
            split_aux sep 0 cur s = [cur +:+ s]) as Hloop.
  { induction s as [|c s IH]; intros cur; cbn [contains split_aux].
    - by rewrite app_empty_r.
    - intros [Hprefix Hrest]%orb_false_iff. rewrite Hprefix, (IH _ Hrest).
      by rewrite string_app_assoc. }
  intros Habsent. by rewrite Hloop.
Qed.

End PyFacts.

(** ** The document processor *)

Module DocumentProcessorSpec.

Import DocumentProcessor PyFacts.

(** The category rules in the words of the specification: an ordered list
    of categories, each with its keywords. *)
Definition category_rules : list (string * list string) :=
  [ ("security", ["security"; "sec"; "compliance"; "audit"]);
    ("cicd", ["ci"; "cd"; "pipeline"; "deploy"; "jenkins"; "github-actions"]);
    ("infrastructure", ["kubernetes"; "k8s"; "docker"; "container"]);
    ("ai_engineering", ["ml"; "ai"; "model"; "training"; "mlops"]);
    ("cloud_certification", ["aws"; "cloud"; "cert"; "so3"]);
    ("professional_profile", ["resume"; "cv"]);
    ("project_documentation", ["project"; "implementation"]) ].

(** A rule matches a lower-cased name when one of its keywords is a
    substring of the name. *)
Definition rule_matches (name : string) (rule : string * list string) : bool :=
  any_in (snd rule) name.

(** First matching rule wins; [general] when none matches. *)
Definition categorize_by_rules (name : string) : string :=
  match List.find (rule_matches name) category_rules with
  | Some rule => fst rule
  | None => "general"
  end.

Section WithStrings.
Context `{PyStr}.

Lemma categorize_refines (filename : string) :
  _categorize_document filename = categorize_by_rules (lower filename).
Proof.
  unfold _categorize_document, categorize_by_rules, category_rules, rule_matches.
  cbn [List.find snd fst].
  repeat (match goal with |- context [any_in ?ks ?s] =>
            destruct (any_in ks s); [reflexivity|] end).
  reflexivity.
Qed.

Lemma find_first_match {A} (p : A -> bool) (l : list A) (i : nat) (x : A) :
  l !! i = Some x -> p x = true ->
  (forall j y, (j < i)%nat -> l !! j = Some y -> p y = false) ->
  List.find p l = Some x.
Proof.
  revert i. induction l as [|a l IH]; intros i Hi Hp Hbefore; [done|].
  destruct i as [|i]; simpl in *.
  - injection Hi as ->. by rewrite Hp.
  - rewrite (Hbefore 0%nat a); [|lia|done].
    apply (IH i); [done..|].
    intros j y Hj Hy. apply (Hbefore (S j) y); [lia|done].
Qed.

Lemma find_no_match {A} (p : A -> bool) (l : list A) :
  (forall x, In x l -> p x = false) -> List.find p l = None.
Proof.
  induction l as [|a l IH]; intros Hall; [done|]. simpl.
  rewrite (Hall a); [|by left]. apply IH. intros x Hx. apply Hall. by right.
Qed.

(** C1. For every filename the category is found by a case-insensitive
    substring match against the ordered rule list security, cicd,
    infrastructure, ai_engineering, cloud_certification,
    professional_profile, project_documentation: the first rule with a
    keyword occurring in the lower-cased filename gives the category, and
    the category is general when no rule matches. *)
Theorem categorize_first_match (filename : string) :
  _categorize_document filename = categorize_by_rules (lower filename)
  /\ map fst category_rules =
       ["security"; "cicd"; "infrastructure"; "ai_engineering";
        "cloud_certification"; "professional_profile"; "project_documentation"]
  /\ (forall rule, rule_matches (lower filename) rule = true <->
        exists keyword a b, In keyword (snd rule)
                            /\ lower filename = a +:+ keyword +:+ b)
  /\ (forall i rule,
        category_rules !! i = Some rule ->
        rule_matches (lower filename) rule = true ->
        (forall j earlier, (j < i)%nat -> category_rules !! j = Some earlier ->
                           rule_matches (lower filename) earlier = false) ->
        _categorize_document filename = fst rule)
  /\ ((forall rule, In rule category_rules ->
                    rule_matches (lower filename) rule = false) ->
      _categorize_document filename = "general")
  /\ (forall other, lower other = lower filename ->
        _categorize_document other = _categorize_document filename).
Proof.
  split; [apply categorize_refines|].
  split; [reflexivity|].
  split.
  { intros rule. unfold rule_matches. rewrite any_in_exists. split.
    - intros [k [Hin Hk]]. apply contains_app in Hk as [a [b Hab]]. eauto.
    - intros [k [a [b [Hin Hab]]]]. exists k. split; [done|].
      apply contains_app. eauto. }
  split.
  { intros i rule Hi Hm Hbefore. rewrite categorize_refines.
    unfold categorize_by_rules.
    by rewrite (find_first_match _ _ i rule Hi Hm Hbefore). }
  split.
  { intros Hnone. rewrite categorize_refines. unfold categorize_by_rules.
    by rewrite find_no_match. }
  intros other Heq. by rewrite !categorize_refines, Heq.
Qed.

End WithStrings.

(** On ASCII names the category does not change when the name is
    upper-cased. *)
Lemma categorize_ignores_ascii_case (filename : string) :
  @_categorize_document ascii_str (ascii_upper filename)
  = @_categorize_document ascii_str filename.
Proof.
  rewrite !(@categorize_refines ascii_str). simpl. by rewrite ascii_lower_upper.
Qed.

(** The first rule does not match [Jenkins-Docker.MD]; the second and the
    third do, and the second gives the category. *)
Lemma categorize_first_match_witness :
  @_categorize_document ascii_str "Jenkins-Docker.MD" = "cicd"
  /\ @_categorize_document ascii_str "notes.txt" = "general".
Proof.
  split.
  - destruct (@categorize_first_match ascii_str "Jenkins-Docker.MD")
      as (_ & _ & _ & Hfirst & _).
    apply (Hfirst 1%nat
             ("cicd", ["ci"; "cd"; "pipeline"; "deploy"; "jenkins"; "github-actions"])).
    + reflexivity.
    + vm_compute. reflexivity.
    + intros [|j] earlier Hj Hearlier; [|lia].
      injection Hearlier as <-. vm_compute. reflexivity.
  - destruct (@categorize_first_match ascii_str "notes.txt")
      as (_ & _ & _ & _ & Hnone & _).
    apply Hnone. intros rule Hrule.
    repeat (destruct Hrule as [<- | Hrule]; [vm_compute; reflexivity|]).
    destruct Hrule.
Defined.

(** *** The text splitter *)

(** A paragraph break is two line feeds, a line break is one. *)
Definition paragraph_break : string := LF +:+ LF.
Definition line_break : string := LF.

(** The splitter as the specification has it: the same sizes, and the
    paragraph break, the line break, the space and the character boundary
    as separators. *)
Definition specified_splitter : RecursiveCharacterTextSplitter :=
  {| chunk_size := 1000;
     chunk_overlap := 200;
     separators := [paragraph_break; line_break; " "; ""] |}.

(** A text of two paragraphs, the first of 15 sentences and 629
    characters, the second of 24 sentences and 647 characters. *)
Definition first_paragraph : string :=
  join " " (replicate 15 "Kubernetes RBAC requires least privilege.").

Definition second_paragraph : string :=
  join " " (replicate 24 "Pipelines deploy on merge.").

Definition two_paragraphs : string :=
  first_paragraph +:+ paragraph_break +:+ second_paragraph.

(** Separators that do not occur in a text leave it to the separators
    after them. *)
Lemma split_units_absent (target : nat) (sep : string)
    (separators : list string) (text : string) :
  contains sep text = false ->
  split_units target (sep :: separators) text = split_units target separators text.
Proof.
  intros Habsent. cbn [split_units].
  destruct (len text <=? target)%nat eqn:Hfits.
  - destruct separators; cbn [split_units]; by rewrite Hfits.
  - unfold pieces. destruct (String.eqb_spec sep "") as [->|_].
    + by destruct text.
    + rewrite (split_absent _ _ Habsent). cbn [flat_map]. apply app_nil_r.
Qed.

Lemma contains_twice_absent (sep text : string) :
  contains sep text = false -> contains (sep +:+ sep) text = false.
Proof.
  intros Habsent. apply not_true_is_false. intros Htwice.
  apply contains_app in Htwice as (a & b & ->).
  assert (contains sep (a +:+ (sep +:+ sep) +:+ b) = true) as Hin; [|congruence].
  apply contains_app. exists a, (sep +:+ b). by rewrite !string_app_assoc.
Qed.

(** C4. The splitter is configured with chunk size 1000 and overlap 200.
    Its four separators are, in order, the four characters backslash, n,
    backslash, n; the two characters backslash, n; the space; and the
    empty string.  Neither the paragraph break nor the line break is one
    of them: a text that holds no backslash followed by n is split as if
    the space and the character boundary were the only separators.  The
    text of two paragraphs has more than 1000 characters; the separators
    of the specification split it at the paragraph break into its two
    paragraphs, while the splitter of the code splits it at its spaces
    only, leaving the paragraph break inside a unit. *)
Theorem text_splitter_configuration :
  chunk_size text_splitter = 1000
  /\ chunk_overlap text_splitter = 200
  /\ separators text_splitter =
       [ String "092" (String "n" (String "092" (String "n" "")));
         String "092" (String "n" ""); " "; "" ]
  /\ map String.length (separators text_splitter) = [4; 2; 1; 0]%nat
  /\ ~ In paragraph_break (separators text_splitter)
  /\ ~ In line_break (separators text_splitter)
  /\ List.filter (fun sep => contains sep two_paragraphs)
                 (separators text_splitter) = [" "; ""]
  /\ (forall text,
        contains esc_n text = false ->
        units text_splitter text = split_units 1000 [" "; ""] text)
  /\ (len first_paragraph = 629 /\ len second_paragraph = 647
      /\ len two_paragraphs = 1278)%nat
  /\ units specified_splitter two_paragraphs = [first_paragraph; second_paragraph]
  /\ units text_splitter two_paragraphs = split " " two_paragraphs
  /\ existsb (String.eqb ("privilege." +:+ paragraph_break +:+ "Pipelines"))
             (units text_splitter two_paragraphs) = true
  /\ existsb (String.eqb first_paragraph)
             (units text_splitter two_paragraphs) = false
  /\ existsb (contains paragraph_break)
             (units specified_splitter two_paragraphs) = false.
Proof.
  do 4 (split; [reflexivity|]).
  split.
  { intros Hin. repeat (destruct Hin as [Heq | Hin]; [discriminate Heq|]).
    destruct Hin. }
  split.
  { intros Hin. repeat (destruct Hin as [Heq | Hin]; [discriminate Heq|]).
    destruct Hin. }
  split; [vm_compute; reflexivity|].
  split.
  { intros text Habsent. unfold units. cbn [chunk_size separators text_splitter].
    change (Z.to_nat 1000) with 1000%nat.
    rewrite split_units_absent by by apply contains_twice_absent.
    by rewrite split_units_absent. }
  repeat split; vm_compute; reflexivity.
Qed.

(** The two paragraphs hold no backslash: the splitter of the code
    treats them as the splitter whose only separators are the space and
    the character boundary does. *)
Lemma text_splitter_configuration_witness :
  units text_splitter two_paragraphs = split_units 1000 [" "; ""] two_paragraphs.
Proof.
  destruct text_splitter_configuration as (_ & _ & _ & _ & _ & _ & _ & Hspaces & _).
  apply Hspaces. vm_compute. reflexivity.
Defined.

(** *** Chunk identifiers *)

(** A store that records the [add] calls it receives, oldest first. *)
Definition recording_add (request : AddRequest) (log : list AddRequest)
  : outcome (list AddRequest) :=
  Returned (log ++ [request])%list.

(** A splitter that returns a text as its only chunk, as the splitting
    library does for a text shorter than the chunk size. *)
Definition single_chunk (_ : RecursiveCharacterTextSplitter) (text : string)
  : list string := [text].

Definition rbac_document : Document :=
  {| page_content := "Kubernetes RBAC requires least privilege.";
     metadata := {[ "category" := VStr "security" ]} |}.

Definition pipeline_document : Document :=
  {| page_content := "Pipelines deploy on merge.";
     metadata := {[ "category" := VStr "cicd" ]} |}.

#[local] Instance doc_id_inj : Inj (=) (=) doc_id.
Proof.
  intros i j Hij. unfold doc_id in Hij.
  apply (inj (String.app "doc_")) in Hij. by apply (inj pretty) in Hij.
Qed.

Lemma seq_prefix (n m : nat) :
  (n <= m)%nat -> seq 0 n `prefix_of` seq 0 m.
Proof.
  intros Hle. exists (seq n (m - n)).
  replace m with (n + (m - n))%nat at 1 by lia. apply seq_app.
Qed.

Section Identifiers.

Variable split_text : RecursiveCharacterTextSplitter -> string -> list string.

(** C8, as the code has it.  The identifiers one ingestion call assigns
    are doc_0, doc_1, ... in the order of its chunks and are pairwise
    distinct; the call hands them to the store whatever the store holds;
    and of the identifier lists of two calls one is a prefix of the
    other. *)
Theorem ingestion_ids (documents : list Document) :
  add_ids (add_request split_text documents)
    = map doc_id (seq 0 (length (chunks_of split_text documents)))
  /\ NoDup (add_ids (add_request split_text documents))
  /\ (forall (Store : Type) (add : AddRequest -> Store -> outcome Store)
             (document : Document) (store : Store),
        ingest_documents split_text Store add (document :: documents) store
        = try_except (add (add_request split_text (document :: documents)) store)
                     (fun _ => Returned store))
  /\ (forall others : list Document,
        add_ids (add_request split_text documents)
          `prefix_of` add_ids (add_request split_text others)
        \/ add_ids (add_request split_text others)
          `prefix_of` add_ids (add_request split_text documents)).
Proof.
  split; [reflexivity|]. split.
  { apply (NoDup_fmap_2 doc_id), NoDup_seq. }
  split; [reflexivity|].
  intros others. cbn [add_ids add_request].
  destruct (Nat.le_ge_cases (length (chunks_of split_text documents))
                            (length (chunks_of split_text others))) as [Hle|Hle];
    [left|right]; destruct (seq_prefix _ _ Hle) as [k ->];
    rewrite map_app; by eexists.
Qed.

End Identifiers.

(** Two ingestion calls into one store, each of one short document: both
    hand the identifier doc_0 to the store. *)
Lemma ids_reused_across_calls :
  (ingest_documents single_chunk _ recording_add [rbac_document] []
     ≫= ingest_documents single_chunk _ recording_add [pipeline_document])
  = Returned [add_request single_chunk [rbac_document];
              add_request single_chunk [pipeline_document]]
  /\ add_ids (add_request single_chunk [rbac_document]) = ["doc_0"]
  /\ add_ids (add_request single_chunk [pipeline_document]) = ["doc_0"].
Proof. repeat split. Qed.

End DocumentProcessorSpec.

(** ** Facts about computations that can raise *)

Module ExcFacts.

Lemma bind_returned {A B} (c : outcome A) (k : A -> outcome B) (b : B) :
  c ≫= k = Returned b <-> exists a, c = Returned a /\ k a = Returned b.
Proof.
  destruct c as [a|e]; simpl; split.
  - intros Hk. by exists a.
  - by intros [a' [[= <-] Hk]].
  - discriminate.
  - by intros [a' [? _]].
Qed.

Lemma ret_bind {A B} (a : A) (k : A -> outcome B) : Returned a ≫= k = k a.
Proof. reflexivity. Qed.

Lemma index_returned {A} (l : list A) (i : nat) (x : A) :
  index l i = Returned x <-> l !! i = Some x.
Proof.
  unfold index. destruct (l !! i); split; congruence.
Qed.

Lemma for_each_lookup {A B} (f : A -> outcome B) (l : list A) (xs : list B) :
  for_each f l = Returned xs ->
  forall i x, xs !! i = Some x -> exists a, l !! i = Some a /\ f a = Returned x.
Proof.
  revert xs. induction l as [|a l IH]; intros xs; cbn [for_each].
  - intros [= <-] i x Hx. by rewrite lookup_nil in Hx.
  - intros (b & Hb & Hrest)%bind_returned.
    apply bind_returned in Hrest as (bs & Hbs & [= <-]).
    intros [|i] x Hx; simpl in Hx.
    + injection Hx as <-. eauto.
    + apply (IH bs Hbs i x Hx).
Qed.

Lemma for_each_length {A B} (f : A -> outcome B) (l : list A) (xs : list B) :
  for_each f l = Returned xs -> length xs = length l.
Proof.
  revert xs. induction l as [|a l IH]; intros xs; cbn [for_each].
  - by intros [= <-].
  - intros (b & Hb & Hrest)%bind_returned.
    apply bind_returned in Hrest as (bs & Hbs & [= <-]).
    simpl. f_equal. by apply IH.
Qed.

End ExcFacts.

(** ** Retrieval and answers *)

Module RagSpec.

Import Rag PyFacts ExcFacts.

(** *** An example collection *)

Definition rbac_text : string := "Kubernetes RBAC requires least privilege.".
Definition pipeline_text : string := "Pipelines deploy on merge.".
Definition iam_text : string := "IAM policies grant least privilege.".

(** The distance of the stored texts of the example to any query; with
    squared Euclidean distance between unit vectors a distance lies
    between 0 and 4. *)
Definition example_distance (query text : string) : float :=
  if String.eqb text rbac_text then 0.25%float
  else if String.eqb text pipeline_text then 2%float
  else 0.5%float.

Definition rbac_record : record :=
  {| rec_id := "doc_0"; rec_document := rbac_text;
     rec_metadata := {[ "category" := VStr "security";
                        "source" := VStr "/data/documents/security.md" ]} |}.

Definition pipeline_record : record :=
  {| rec_id := "doc_1"; rec_document := pipeline_text;
     rec_metadata := {[ "category" := VStr "cicd";
                        "source" := VStr "/data/documents/pipeline.md";
                        "pages" := VInt 3 ]} |}.

Definition iam_record : record :=
  {| rec_id := "doc_2"; rec_document := iam_text;
     rec_metadata := {[ "category" := VStr "cloud_certification";
                        "source" := VStr "/data/documents/aws.md" ]} |}.

Definition example_collection : Collection :=
  chroma example_distance [pipeline_record; rbac_record; iam_record].

(** *** The relevance score *)

Lemma context_at_fields (results : QueryResult) (i : nat) (ctx : RetrievedContext) :
  context_at results i = Returned ctx ->
  exists docs metas dists doc meta dist,
    documents results !! 0%nat = Some docs /\ docs !! i = Some doc
    /\ metadatas results !! 0%nat = Some metas /\ metas !! i = Some meta
    /\ distances results !! 0%nat = Some dists /\ dists !! i = Some dist
    /\ ctx = {| content := doc; metadata := meta;
                relevance_score := (1 - dist)%float |}.
Proof.
  unfold context_at.
  intros (docs & Hdocs%index_returned & H1)%bind_returned.
  apply bind_returned in H1 as (doc & Hdoc%index_returned & H1).
  apply bind_returned in H1 as (metas & Hmetas%index_returned & H1).
  apply bind_returned in H1 as (meta & Hmeta%index_returned & H1).
  apply bind_returned in H1 as (dists & Hdists%index_returned & H1).
  apply bind_returned in H1 as (dist & Hdist%index_returned & [= <-]).
  by exists docs, metas, dists, doc, meta, dist.
Qed.

(** The score of every context of a loop over an initial segment of the
    results is one minus the distance at the same position. *)
Lemma loop_scores (results : QueryResult) (n : nat) (l : list RetrievedContext) :
  for_each (context_at results) (seq 0 n) = Returned l ->
  forall i ctx, l !! i = Some ctx ->
  exists dists dist,
    distances results !! 0%nat = Some dists /\ dists !! i = Some dist
    /\ relevance_score ctx = (1 - dist)%float.
Proof.
  intros Hl i ctx Hctx.
  destruct (for_each_lookup _ _ _ Hl i ctx Hctx) as (j & Hj & Hat).
  apply lookup_seq in Hj as [Hj _]. simpl in Hj. subst j.
  apply context_at_fields in Hat
    as (docs & metas & dists & doc & meta & dist & _ & _ & _ & _ & Hd & Hdist & Hctx').
  exists dists, dist. by rewrite Hctx'.
Qed.

Lemma to_nat_min_0 (n : Z) : Z.to_nat (Z.min n (Z.of_nat 0)) = 0%nat.
Proof. lia. Qed.

Section WithCollection.

Variable collection : Collection.

Lemma retrieve_context_cases (query : string) (n_results : Z) :
  retrieve_context collection query n_results
  = Returned
      match coll_query collection query n_results None with
      | Raised _ => []
      | Returned results =>
          match for_each (context_at results)
                         (seq 0 (length (default [] (documents results !! 0%nat)))) with
          | Returned l => l
          | Raised _ => []
          end
      end.
Proof.
  unfold retrieve_context.
  destruct (coll_query collection query n_results None) as [results|e]; [|done].
  simpl. destruct (documents results) as [|[|doc docs] rest]; [done..|].
  cbn [lookup list_lookup default].
  by destruct (for_each _ _).
Qed.

Lemma search_by_category_cases (query category : string) (n_results : Z) :
  search_by_category collection query category n_results
  = Returned
      match coll_query collection query (n_results * 2) (Some category) with
      | Raised _ => []
      | Returned results =>
          match for_each (context_at results)
                  (seq 0 (Z.to_nat (Z.min n_results
                     (Z.of_nat (length (default [] (documents results !! 0%nat))))))) with
          | Returned l => l
          | Raised _ => []
          end
      end.
Proof.
  unfold search_by_category.
  destruct (coll_query collection query (n_results * 2) (Some category))
    as [results|e]; [|done].
  simpl. destruct (documents results) as [|[|doc docs] rest].
  - cbn [lookup list_lookup default length]. by rewrite to_nat_min_0.
  - cbn [lookup list_lookup default length]. by rewrite to_nat_min_0.
  - cbn [lookup list_lookup default]. by destruct (for_each _ _).
Qed.

(** C2. For every result retrieved, with or without a category, the
    relevance score is one minus the distance the store reported at the
    same position; no bound is applied, and a store that reports the
    distance 2 gives the score -1, which is below 0. *)
Theorem relevance_score_is_one_minus_distance
    (query category : string) (n_results : Z) :
  (forall results l,
     coll_query collection query n_results None = Returned results ->
     retrieve_context collection query n_results = Returned l ->
     forall i ctx, l !! i = Some ctx ->
     exists dists dist,
       distances results !! 0%nat = Some dists /\ dists !! i = Some dist
       /\ relevance_score ctx = (1 - dist)%float)
  /\ (forall results l,
     coll_query collection query (n_results * 2) (Some category) = Returned results ->
     search_by_category collection query category n_results = Returned l ->
     forall i ctx, l !! i = Some ctx ->
     exists dists dist,
       distances results !! 0%nat = Some dists /\ dists !! i = Some dist
       /\ relevance_score ctx = (1 - dist)%float)
  /\ (exists ctx,
        retrieve_context example_collection query 1 = Returned [ctx]
        /\ relevance_score ctx = (1 - 0.25)%float)
  /\ (exists ctx,
        search_by_category example_collection query "cicd" 1 = Returned [ctx]
        /\ PrimFloat.ltb 1 (example_distance query (content ctx)) = true
        /\ relevance_score ctx = (1 - example_distance query (content ctx))%float
        /\ PrimFloat.ltb (relevance_score ctx) 0 = true).
Proof.
  split; [|split; [|split]].
  - intros results l Hq. rewrite retrieve_context_cases, Hq. intros [= <-] i ctx.
    destruct (for_each _ _) as [l|e] eqn:Hl; [|by rewrite lookup_nil].
    by apply (loop_scores _ _ _ Hl).
  - intros results l Hq. rewrite search_by_category_cases, Hq.
    intros [= <-] i ctx.
    destruct (for_each _ _) as [l|e] eqn:Hl; [|by rewrite lookup_nil].
    by apply (loop_scores _ _ _ Hl).
  - eexists. split; [vm_compute; reflexivity|]. vm_compute. reflexivity.
  - eexists. split; [vm_compute; reflexivity|]. by vm_compute.
Qed.

End WithCollection.

(** The lookups of the first two conjuncts, at the second result of the
    example collection. *)
Lemma relevance_score_witness :
  exists results l ctx,
    coll_query example_collection "How do I secure k8s?" 3 None = Returned results
    /\ retrieve_context example_collection "How do I secure k8s?" 3 = Returned l
    /\ l !! 1%nat = Some ctx
    /\ exists dists dist,
         distances results !! 0%nat = Some dists /\ dists !! 1%nat = Some dist
         /\ relevance_score ctx = (1 - dist)%float.
Proof.
  eexists _, _, _.
  split; [vm_compute; reflexivity|].
  split; [vm_compute; reflexivity|].
  split; [reflexivity|].
  destruct (relevance_score_is_one_minus_distance
              example_collection "How do I secure k8s?" "cicd" 3) as [Hscore _].
  eapply Hscore; [vm_compute; reflexivity | vm_compute; reflexivity | reflexivity].
Defined.

(** *** Retrieval from the reference collection *)

Section Reference.

Variable distance : string -> string -> float.

(** The context built from a stored record. *)
Definition to_context (query : string) (r : record) : RetrievedContext :=
  {| content := rec_document r; metadata := rec_metadata r;
     relevance_score := (1 - distance query (rec_document r))%float |}.

(** The answer of the reference collection that lists the records [top]. *)
Definition results_of (query : string) (top : list record) : QueryResult :=
  {| documents := [rec_document <$> top];
     metadatas := [rec_metadata <$> top];
     distances := [(fun r => distance query (rec_document r)) <$> top] |}.

Lemma loop_over_records (query : string) (top : list record) (start n : nat) :
  (start + n <= length top)%nat ->
  for_each (context_at (results_of query top)) (seq start n)
  = Returned (to_context query <$> take n (drop start top)).
Proof.
  revert start. induction n as [|n IH]; intros start Hlen; [done|].
  destruct (lookup_lt_is_Some_2 top start) as [r Hr]; [lia|].
  cbn [seq for_each]. rewrite (IH (S start)) by lia.
  rewrite (drop_S _ _ _ Hr). cbn [take fmap list_fmap].
  unfold context_at, results_of, index. cbn [documents metadatas distances].
  cbn [lookup list_lookup].
  repeat (rewrite ret_bind || (rewrite list_lookup_fmap, Hr; cbn [fmap option_fmap option_map])).
  reflexivity.
Qed.

Lemma retrieve_context_reference (records : list record) (query : string)
    (n_results : Z) :
  retrieve_context (chroma distance records) query n_results
  = Returned (to_context query <$> nearest distance records query n_results None).
Proof.
  rewrite retrieve_context_cases. f_equal.
  cbn [coll_query chroma]. unfold chroma_query.
  destruct (Z.leb_spec n_results 0) as [Hn|Hn].
  - unfold nearest. by replace (Z.to_nat n_results) with 0%nat by lia.
  - fold (results_of query (nearest distance records query n_results None)).
    cbn [documents results_of lookup list_lookup default id].
    rewrite length_fmap, loop_over_records by (simpl; lia).
    by rewrite drop_0, firstn_all.
Qed.

Lemma search_by_category_reference (records : list record)
    (query category : string) (n_results : Z) :
  search_by_category (chroma distance records) query category n_results
  = Returned (to_context query
                <$> take (Z.to_nat n_results)
                         (nearest distance records query (n_results * 2)
                                  (Some category))).
Proof.
  rewrite search_by_category_cases. f_equal.
  cbn [coll_query chroma]. unfold chroma_query.
  destruct (Z.leb_spec (n_results * 2) 0) as [Hn|Hn].
  - by replace (Z.to_nat n_results) with 0%nat by lia.
  - set (top := nearest distance records query (n_results * 2) (Some category)).
    fold (results_of query top).
    cbn [documents results_of lookup list_lookup default id].
    rewrite length_fmap, loop_over_records by (simpl; lia).
    rewrite drop_0. f_equal.
    replace (Z.to_nat (Z.min n_results (Z.of_nat (length top))))
      with (Z.to_nat n_results `min` length top)%nat by lia.
    by rewrite <- take_take, firstn_all.
Qed.

Lemma nearest_elem_of (records : list record) (query : string) (n : Z)
    (flt : option string) (r : record) :
  r ∈ nearest distance records query n flt ->
  r ∈ records /\ where_matches flt r = true.
Proof.
  unfold nearest. intros Hr%subseteq_take.
  rewrite merge_sort_Permutation in Hr.
  by apply list_elem_of_In, filter_In in Hr as [Hr%list_elem_of_In ?].
Qed.

Lemma nearest_length (records : list record) (query : string) (n : Z) :
  length (nearest distance records query n None)
  = (Z.to_nat n `min` length records)%nat.
Proof.
  unfold nearest. rewrite length_take, merge_sort_Permutation. f_equal.
  f_equal. induction records as [|r records IH]; [done|]. simpl. by f_equal.
Qed.

End Reference.

(** C6, as the code has it.  For every query string and k, retrieval
    returns a list and never raises.  The list is empty when the query of
    the store fails, when the store answers with no document, and when
    the reference collection is empty.  The empty query string is handed
    to the store like any other: on the reference collection the result
    has as many contexts as the smaller of k and the number of stored
    records. *)
Theorem retrieve_context_never_raises
    (collection : Collection) (query : string) (n_results : Z) :
  (exists l, retrieve_context collection query n_results = Returned l)
  /\ (forall e, coll_query collection query n_results None = Raised e ->
        retrieve_context collection query n_results = Returned [])
  /\ (forall results,
        coll_query collection query n_results None = Returned results ->
        default [] (documents results !! 0%nat) = [] ->
        retrieve_context collection query n_results = Returned [])
  /\ (forall e, retrieve_context (failing e) query n_results = Returned [])
  /\ (forall distance,
        retrieve_context (chroma distance []) query n_results = Returned [])
  /\ (forall distance records,
        exists l,
          retrieve_context (chroma distance records) "" n_results = Returned l
          /\ length l = (Z.to_nat n_results `min` length records)%nat).
Proof.
  split; [rewrite retrieve_context_cases; eauto|].
  split; [by intros e He; rewrite retrieve_context_cases, He|].
  split.
  { intros results Hq Hnone. by rewrite retrieve_context_cases, Hq, Hnone. }
  split; [done|].
  split.
  { intros distance. rewrite retrieve_context_reference. f_equal.
    apply nil_length_inv. rewrite length_fmap, nearest_length. simpl. lia. }
  intros distance records. eexists.
  split; [apply retrieve_context_reference|].
  by rewrite length_fmap, nearest_length.
Qed.

(** The store fails; the store answers with no document. *)
Lemma retrieve_context_never_raises_witness :
  retrieve_context (failing (StoreError "connection refused")) "aws" 5
    = Returned []
  /\ retrieve_context (chroma example_distance []) "aws" 5 = Returned [].
Proof.
  split.
  - destruct (retrieve_context_never_raises
                (failing (StoreError "connection refused")) "aws" 5)
      as (_ & Hfails & _).
    by apply (Hfails (StoreError "connection refused")).
  - destruct (retrieve_context_never_raises (chroma example_distance []) "aws" 5)
      as (_ & _ & Hnone & _).
    by apply (Hnone (results_of example_distance "aws" [])).
Defined.

(** The empty query string on the example collection: the two nearest
    chunks are returned. *)
Lemma empty_query_is_answered :
  retrieve_context example_collection "" 2
  = Returned [ {| content := rbac_text;
                  metadata := rec_metadata rbac_record;
                  relevance_score := 0.75%float |};
               {| content := iam_text;
                  metadata := rec_metadata iam_record;
                  relevance_score := 0.5%float |} ].
Proof. vm_compute. reflexivity. Qed.

(** C3. Retrieval within a category asks the store for twice k results
    among the records of that category and keeps at most k of the answer,
    in its order, whatever the store is; on the reference collection every
    context returned comes from a stored record whose category is the one
    asked for, also when a record of another category is nearer to the
    query. *)
Theorem search_by_category_filters
    (query category : string) (n_results : Z) :
  (forall collection,
     search_by_category collection query category n_results
     = Returned
         match coll_query collection query (n_results * 2) (Some category) with
         | Raised _ => []
         | Returned results =>
             match for_each (context_at results)
                     (seq 0 (Z.to_nat (Z.min n_results
                        (Z.of_nat (length (default [] (documents results !! 0%nat))))))) with
             | Returned l => l
             | Raised _ => []
             end
         end)
  /\ (forall collection,
        exists l,
          search_by_category collection query category n_results = Returned l
          /\ (length l <= Z.to_nat n_results)%nat)
  /\ (forall distance records,
        exists l,
          search_by_category (chroma distance records) query category n_results
            = Returned l
          /\ l = to_context distance query
                   <$> take (Z.to_nat n_results)
                            (nearest distance records query (n_results * 2)
                                     (Some category))
          /\ (length l <= Z.to_nat n_results)%nat
          /\ Forall (fun ctx => metadata ctx !! "category" = Some (VStr category)) l
          /\ Forall (fun ctx => exists r, r ∈ records
                                          /\ ctx = to_context distance query r) l)
  /\ (PrimFloat.ltb (example_distance query rbac_text)
                    (example_distance query pipeline_text) = true
      /\ search_by_category example_collection query "cicd" 1
         = Returned [to_context example_distance query pipeline_record]).
Proof.
  split; [intros collection; apply search_by_category_cases|].
  split.
  { intros collection. eexists. split; [apply search_by_category_cases|].
    destruct (coll_query collection query (n_results * 2) (Some category))
      as [results|e]; [|simpl; lia].
    destruct (for_each _ _) as [l|e] eqn:Hl; [|simpl; lia].
    rewrite (for_each_length _ _ _ Hl), length_seq. lia. }
  split; [|by vm_compute].
  intros distance records. eexists.
  split; [apply search_by_category_reference|].
  split; [done|].
  split; [rewrite length_fmap, length_take; lia|].
  split; apply Forall_fmap, Forall_forall; intros r Hr%subseteq_take;
    apply nearest_elem_of in Hr as [Hin Hmatch]; simpl.
  - by apply bool_decide_eq_true in Hmatch.
  - eauto.
Qed.

(** *** The answer *)

(** A retrieved chunk whose text holds the words the fallback looks
    for. *)
Definition misleading_context : RetrievedContext :=
  {| content := "No relevant context switches were found in the node logs.";
     metadata := {[ "category" := VStr "infrastructure";
                    "source" := VStr "/data/documents/kubernetes-notes.md" ]};
     relevance_score := 0.5%float |}.

(** A retrieved chunk that does not hold them. *)
Definition rbac_context : RetrievedContext :=
  {| content := rbac_text;
     metadata := rec_metadata rbac_record;
     relevance_score := 0.75%float |}.

Section WithStrings.
Context `{PyStr}.

(** C5, as the code has it.  For every question whose lower-cased text
    contains "pipeline" and contains neither "kubernetes" nor "k8s", the
    recommendations are the CI/CD list, whatever the retrieved context
    is. *)
Theorem pipeline_selects_cicd (query context : string) :
  contains "pipeline" (lower query) = true ->
  contains "kubernetes" (lower query) = false ->
  contains "k8s" (lower query) = false ->
  _generate_recommendations query context = cicd_recommendations.
Proof.
  intros Hpipeline Hkubernetes Hk8s. unfold _generate_recommendations.
  by rewrite Hkubernetes, Hk8s, Hpipeline, orb_true_r.
Qed.

Lemma contains_app_l (needle s t : string) :
  contains needle s = true -> contains needle (s +:+ t) = true.
Proof. apply (contains_inside needle "" s t). Qed.

Lemma contains_app_r (needle s t : string) :
  contains needle t = true -> contains needle (s +:+ t) = true.
Proof.
  rewrite !contains_app. intros (a & b & ->).
  exists (s +:+ a), b. by rewrite string_app_assoc.
Qed.

Lemma source_block_contains (needle : string) (i : nat) (ctx : RetrievedContext)
    (block : string) :
  source_block i ctx = Returned block ->
  contains needle (content ctx) = true ->
  contains needle block = true.
Proof.
  unfold source_block.
  intros (category & _ & Hrest)%bind_returned.
  apply bind_returned in Hrest as (source & _ & [= <-]).
  intros Hneedle.
  do 8 apply contains_app_r. by apply contains_app_l.
Qed.

Lemma append_sources_contains (needle : string) (contexts : list RetrievedContext) :
  forall (i : nat) (acc context_string : string),
  append_sources i contexts acc = Returned context_string ->
  contains needle acc = true
  \/ Exists (fun ctx => contains needle (content ctx) = true) contexts ->
  contains needle context_string = true.
Proof.
  induction contexts as [|ctx contexts IH]; intros i acc context_string;
    cbn [append_sources].
  - intros [= <-] [Hacc | Hex]; [done | by apply Exists_nil in Hex].
  - intros (block & Hblock & Hrest)%bind_returned Hneedle.
    apply (IH _ _ _ Hrest).
    destruct Hneedle as [Hacc | [Hctx | Hex]%Exists_cons]; [left | left | by right].
    + by apply contains_app_l.
    + apply contains_app_r. by apply (source_block_contains needle i ctx).
Qed.

Lemma prepare_context_string_contains (needle : string)
    (contexts : list RetrievedContext) (context_string : string) :
  prepare_context_string contexts = Returned context_string ->
  Exists (fun ctx => contains needle (content ctx) = true) contexts ->
  contains needle context_string = true.
Proof.
  destruct contexts as [|ctx contexts]; [by intros _ Hex%Exists_nil|].
  intros Hprepare Hex.
  apply (append_sources_contains needle _ _ _ _ Hprepare). by right.
Qed.

(** C7. For every question, when no context was retrieved the context
    string is the no-context sentence and the answer is the one canned
    sentence, which has none of the three section headings; so has the
    answer of [query] when retrieval returns nothing. *)
Theorem empty_contexts_give_no_information (question : string) :
  prepare_context_string [] = Returned no_context_found
  /\ generate_response question no_context_found = no_information_answer
  /\ contains "**Key Information:**" no_information_answer = false
  /\ contains "**Practical Recommendations:**" no_information_answer = false
  /\ contains "**Security Considerations:**" no_information_answer = false
  /\ (forall collection n_contexts,
        retrieve_context collection question n_contexts = Returned [] ->
        query collection question n_contexts
        = Returned {| answer := no_information_answer; contexts := [];
                      sources_used := 0; query_text := question |}).
Proof.
  repeat split.
  intros collection n_contexts Hnone. unfold query. by rewrite Hnone.
Qed.

(** C9. The fallback answer is chosen by a substring test on the context
    string, and by nothing else: the answer is the canned sentence when
    the context string holds the text "No relevant context", and the
    structured answer when it does not.  Whenever a retrieved chunk holds
    that text, the context string holds it too and the answer is the
    canned sentence, although the list of contexts is not empty; there is
    such a list.  There is also a list of contexts, not empty either,
    whose context string does not hold the text: its answer is the
    structured one, which is not the canned sentence and has the three
    section headings. *)
Theorem fallback_by_substring :
  (forall question context,
     contains "No relevant context" context = true ->
     generate_response question context = no_information_answer)
  /\ (forall contexts context_string question,
        prepare_context_string contexts = Returned context_string ->
        Exists (fun ctx => contains "No relevant context" (content ctx) = true)
               contexts ->
        generate_response question context_string = no_information_answer)
  /\ (forall question context,
        contains "No relevant context" context = false ->
        generate_response question context = structured_response question context)
  /\ (exists contexts context_string,
        contexts <> []
        /\ Exists (fun ctx => contains "No relevant context" (content ctx) = true)
                  contexts
        /\ prepare_context_string contexts = Returned context_string
        /\ forall question,
             generate_response question context_string = no_information_answer)
  /\ (exists context_string,
        @prepare_context_string ascii_str [rbac_context] = Returned context_string
        /\ contains "No relevant context" context_string = false
        /\ (forall question,
              @generate_response ascii_str question context_string
              = @structured_response ascii_str question context_string
              /\ @generate_response ascii_str question context_string
                 <> no_information_answer)
        /\ contains "**Key Information:**"
             (@generate_response ascii_str "What is RBAC?" context_string) = true
        /\ contains "**Practical Recommendations:**"
             (@generate_response ascii_str "What is RBAC?" context_string) = true
        /\ contains "**Security Considerations:**"
             (@generate_response ascii_str "What is RBAC?" context_string) = true).
Proof.
  assert (forall question context,
            contains "No relevant context" context = true ->
            generate_response question context = no_information_answer)
    as Hsubstring.
  { intros question context Hin. unfold generate_response. by rewrite Hin. }
  assert (forall contexts context_string question,
            prepare_context_string contexts = Returned context_string ->
            Exists (fun ctx => contains "No relevant context" (content ctx) = true)
                   contexts ->
            generate_response question context_string = no_information_answer)
    as Hcontexts.
  { intros contexts context_string question Hprepare Hex.
    apply Hsubstring. by apply (prepare_context_string_contains _ contexts). }
  split; [done|]. split; [done|].
  split.
  { intros question context Hout. unfold generate_response. by rewrite Hout. }
  split.
  { exists [misleading_context]. eexists.
    split; [done|].
    assert (Exists (fun ctx => contains "No relevant context" (content ctx) = true)
                   [misleading_context]) as Hex.
    { apply Exists_cons_hd. vm_compute. reflexivity. }
    split; [done|].
    split; [vm_compute; reflexivity|].
    intros question. apply (Hcontexts [misleading_context]); [|done].
    vm_compute. reflexivity. }
  eexists. split; [vm_compute; reflexivity|].
  split; [vm_compute; reflexivity|].
  split; [|by vm_compute].
  intros question.
  match goal with |- ?answer = _ /\ _ =>
    assert (answer = @structured_response ascii_str question
                       ("RELEVANT KNOWLEDGE FROM MOSES'S EXPERTISE:" +:+ esc_n
                        +:+ esc_n
                        +:+ "[Source 1 - Security] (security.md):" +:+ esc_n
                        +:+ rbac_text +:+ esc_n +:+ esc_n)) as Hstructured
  end.
  { unfold generate_response.
    match goal with |- (if ?test then _ else _) = _ =>
      replace test with false by (vm_compute; reflexivity)
    end.
    reflexivity. }
  split; [by rewrite Hstructured|].
  rewrite Hstructured. unfold structured_response. cbn [strip ascii_str].
  rewrite app_cons.
  match goal with |- ascii_strip (String ?c ?rest) <> _ =>
    destruct (ascii_strip_head c rest eq_refl) as [r ->]
  end.
  discriminate.
Qed.

End WithStrings.

(** A question about a pipeline, with a context that is about something
    else. *)
Lemma pipeline_selects_cicd_witness :
  @_generate_recommendations ascii_str
     "How do I harden my deployment Pipeline?" rbac_text
  = cicd_recommendations.
Proof.
  apply (@pipeline_selects_cicd ascii_str); vm_compute; reflexivity.
Defined.

(** A question that contains both "kubernetes" and "pipeline" gets the
    Kubernetes list, which is not the CI/CD list. *)
Lemma kubernetes_pipeline_question :
  contains "pipeline" (ascii_lower "How do I secure a Kubernetes pipeline?") = true
  /\ @_generate_recommendations ascii_str
       "How do I secure a Kubernetes pipeline?" pipeline_text
     = kubernetes_recommendations
  /\ kubernetes_recommendations <> cicd_recommendations.
Proof. repeat split. discriminate. Qed.

(** The store fails, retrieval returns nothing and the answer is the
    canned sentence. *)
Lemma empty_contexts_give_no_information_witness :
  @query ascii_str (failing (StoreError "connection refused")) "What is RBAC?" 5
  = Returned {| answer := no_information_answer; contexts := [];
                sources_used := 0; query_text := "What is RBAC?" |}.
Proof.
  destruct (@empty_contexts_give_no_information ascii_str "What is RBAC?")
    as (_ & _ & _ & _ & _ & Hquery).
  by apply Hquery.
Defined.

(** The misleading chunk, run through the ASCII string methods, and
    retrieved from a store that holds nothing else. *)
Lemma fallback_by_substring_witness :
  @prepare_context_string ascii_str [misleading_context]
  = Returned
      ("RELEVANT KNOWLEDGE FROM MOSES'S EXPERTISE:" +:+ esc_n +:+ esc_n
       +:+ "[Source 1 - Infrastructure] (kubernetes-notes.md):" +:+ esc_n
       +:+ "No relevant context switches were found in the node logs."
       +:+ esc_n +:+ esc_n)
  /\ @query ascii_str
       (chroma example_distance
          [{| rec_id := "doc_0"; rec_document := content misleading_context;
              rec_metadata := metadata misleading_context |}])
       "How do I debug node pressure?" 1
     = Returned {| answer := no_information_answer;
                   contexts := [misleading_context];
                   sources_used := 1;
                   query_text := "How do I debug node pressure?" |}
  /\ exists context_string,
       @prepare_context_string ascii_str [misleading_context]
         = Returned context_string
       /\ @generate_response ascii_str "How do I debug node pressure?"
                             context_string
          = no_information_answer.
Proof.
  split; [vm_compute; reflexivity|].
  split; [vm_compute; reflexivity|].
  eexists. split; [vm_compute; reflexivity|].
  destruct (@fallback_by_substring ascii_str) as (_ & Hcontexts & _).
  apply (Hcontexts [misleading_context]); [vm_compute; reflexivity|].
  apply Exists_cons_hd. vm_compute. reflexivity.
Defined.

(** *** The knowledge base summary *)

(** The order of [sorted] on metadata values. *)
Definition value_le (v1 v2 : value) : Prop :=
  match v1, v2 with
  | VStr s1, VStr s2 => String.le s1 s2
  | VInt n1, VInt n2 => n1 <= n2
  | _, _ => False
  end.

Lemma mapM_fmap {A B} (f : A -> option B) (g : B -> A) (l : list A) (k : list B) :
  (forall x y, f x = Some y -> x = g y) -> mapM f l = Some k -> l = g <$> k.
Proof.
  intros Hfg Hl. apply mapM_Some in Hl.
  induction Hl as [|x y l k Hxy _ IH]; [done|].
  cbn [fmap list_fmap]. fold (g <$> k). by rewrite (Hfg x y Hxy), <- IH.
Qed.

Lemma sorted_returned (values l : list value) :
  sorted values = Returned l -> l ≡ₚ values /\ StronglySorted value_le l.
Proof.
  unfold sorted.
  destruct (as_strings values) as [strs|] eqn:Hstrs;
    [|destruct (as_ints values) as [ints|] eqn:Hints; [|done]];
    intros [= <-].
  - apply (mapM_fmap _ VStr) in Hstrs as ->; [|by intros [] ? [= ->]].
    split; [by rewrite merge_sort_Permutation|].
    apply (StronglySorted_fmap _ String.le); [done|].
    apply StronglySorted_merge_sort; apply _.
  - apply (mapM_fmap _ VInt) in Hints as ->; [|by intros [] ? [= ->]].
    split; [by rewrite merge_sort_Permutation|].
    apply (StronglySorted_fmap _ Z.le); [done|].
    apply StronglySorted_merge_sort; apply _.
Qed.

Lemma sorted_strings (values : list value) :
  Forall (fun v => exists s, v = VStr s) values ->
  exists l, sorted values = Returned l.
Proof.
  intros Hall. unfold sorted.
  assert (exists strs, as_strings values = Some strs) as [strs ->]; [|eauto].
  induction Hall as [|v values [s ->] _ [strs IH]]; [by exists []|].
  exists (s :: strs). unfold as_strings in *. cbn [mapM]. by rewrite IH.
Qed.

Lemma sample_categories_elem_of (sample : list (gmap string value)) (c : value) :
  c ∈ sample_categories sample <->
  exists metadata, metadata ∈ sample /\ metadata !! "category" = Some c.
Proof.
  unfold sample_categories.
  assert (forall acc : gset value,
            c ∈ foldl (fun categories metadata =>
                         match metadata !! "category" with
                         | Some category => {[category]} ∪ categories
                         | None => categories
                         end) acc sample
            <-> c ∈ acc \/ exists metadata,
                  metadata ∈ sample /\ metadata !! "category" = Some c) as Hloop.
  { induction sample as [|md sample IH]; intros acc; cbn [foldl].
    - split; [by left|]. intros [?|(md & Hmd%elem_of_nil & _)]; done.
    - rewrite IH. setoid_rewrite elem_of_cons.
      destruct (md !! "category") as [category|] eqn:Hmd.
      + rewrite elem_of_union, elem_of_singleton. split.
        * intros [[-> | Hacc] | (md' & Hin & Hc)]; eauto 6.
        * intros [Hacc | (md' & [-> | Hin] & Hc)]; eauto 6.
          left. left. congruence.
      + split.
        * intros [Hacc | (md' & Hin & Hc)]; eauto 6.
        * intros [Hacc | (md' & [-> | Hin] & Hc)]; eauto 6. congruence. }
  rewrite Hloop. split; [|by right].
  intros [Hempty%elem_of_empty | ?]; done.
Qed.

Section Summary.

Variable distance : string -> string -> float.
Variable records : list record.

(** C10. The summary counts every stored chunk but reads the categories
    of the first 100 records only: a category is listed only if one of
    the first 100 records has it, so for a store of more than 100 chunks
    a category that occurs only beyond the first 100 is not listed.  The
    list has no duplicates and is sorted in ascending order.  When the
    categories read are all strings the summary is the active one: the
    count is the number of chunks and every category of the first 100
    records is listed. *)
Theorem knowledge_base_info_samples_first_100 :
  exists info,
    get_knowledge_base_info (chroma distance records) = Returned info
    /\ (error info = None ->
          total_documents info = Z.of_nat (length records)
          /\ status info = "active"
          /\ forall r c, r ∈ take 100 records ->
               rec_metadata r !! "category" = Some c -> c ∈ categories info)
    /\ (Forall (fun r => forall c, rec_metadata r !! "category" = Some c ->
                                   exists s, c = VStr s) (take 100 records) ->
          error info = None)
    /\ (forall c, c ∈ categories info ->
          exists r, r ∈ take 100 records /\ rec_metadata r !! "category" = Some c)
    /\ ((100 < length records)%nat ->
          forall c,
            (exists r, r ∈ drop 100 records
                       /\ rec_metadata r !! "category" = Some c) ->
            (forall r, r ∈ take 100 records ->
                       rec_metadata r !! "category" <> Some c) ->
            c ∉ categories info)
    /\ NoDup (categories info)
    /\ StronglySorted value_le (categories info).
Proof.
  set (sample := rec_metadata <$> take 100 records).
  assert (forall c, c ∈ elements (sample_categories sample) <->
            exists r, r ∈ take 100 records
                      /\ rec_metadata r !! "category" = Some c) as Hsample.
  { intros c. rewrite elem_of_elements, sample_categories_elem_of. split.
    - intros (md & (r & -> & Hr)%list_elem_of_fmap & Hc). eauto.
    - intros (r & Hr & Hc). exists (rec_metadata r). split; [|done].
      apply list_elem_of_fmap. eauto. }
  unfold get_knowledge_base_info. cbn [coll_count coll_get chroma].
  rewrite !ret_bind. change (Z.to_nat 100) with 100%nat. fold sample.
  destruct (sorted (elements (sample_categories sample))) as [l|e] eqn:Hsorted.
  - apply sorted_returned in Hsorted as [Hperm Hsort].
    exists {| total_documents := Z.of_nat (length records); categories := l;
              status := "active"; error := None |}.
    cbn [try_except mbind outcome_bind mret outcome_ret
         total_documents categories status error].
    split; [done|]. split.
    { intros _. split; [done|]. split; [done|]. intros r c Hr Hc.
      rewrite Hperm. apply Hsample. eauto. }
    split; [done|]. split.
    { intros c Hc. rewrite Hperm in Hc. by apply Hsample. }
    split.
    { intros _ c _ Hnot Hc. rewrite Hperm in Hc.
      apply Hsample in Hc as (r & Hr & Hrc). by apply (Hnot r). }
    split; [|done]. rewrite Hperm. apply NoDup_elements.
  - exists {| total_documents := 0; categories := []; status := "error";
              error := Some e |}.
    cbn [try_except mbind outcome_bind total_documents categories status error].
    split; [done|]. split; [done|]. split.
    { intros Hstrings.
      destruct (sorted_strings (elements (sample_categories sample)))
        as [l Hl]; [|congruence].
      apply Forall_forall. intros c (r & Hr & Hc)%Hsample.
      rewrite Forall_forall in Hstrings. by apply (Hstrings r). }
    split; [by intros c Hc%elem_of_nil|].
    split; [by intros _ c _ _ Hc%elem_of_nil|].
    split; [apply NoDup_nil_2 | apply SSorted_nil].
Qed.

End Summary.

(** A store of 101 chunks: the first 100 are about security, the last one
    is about CI/CD. *)
Definition hundred_and_one : list record :=
  replicate 100 rbac_record ++ [pipeline_record].

Lemma knowledge_base_info_witness :
  get_knowledge_base_info (chroma example_distance hundred_and_one)
  = Returned {| total_documents := 101; categories := [VStr "security"];
                status := "active"; error := None |}
  /\ VStr "cicd" ∉ [VStr "security"].
Proof.
  destruct (knowledge_base_info_samples_first_100 example_distance hundred_and_one)
    as (info & Hinfo & _ & _ & _ & Habsent & _).
  assert (get_knowledge_base_info (chroma example_distance hundred_and_one)
          = Returned {| total_documents := 101; categories := [VStr "security"];
                        status := "active"; error := None |}) as Heq.
  { vm_compute. reflexivity. }
  split; [done|].
  rewrite Heq in Hinfo. injection Hinfo as <-. cbn [categories] in Habsent.
  apply Habsent.
  - vm_compute. lia.
  - exists pipeline_record. split; [|reflexivity].
    change (drop 100 hundred_and_one) with [pipeline_record]. apply list_elem_of_here.
  - change (take 100 hundred_and_one) with (replicate 100 rbac_record).
    intros r [-> _]%elem_of_replicate. vm_compute. discriminate.
Defined.

(** *** A run of the whole pipeline *)

(** The scenario of the specification: the store holds the chunk about
    RBAC, the question is about k8s and one context is asked for.  The
    chunk is retrieved with the score one minus its distance, and the
    answer is the structured one with the Kubernetes recommendations. *)
Example kubernetes_scenario :
  exists result,
    @query ascii_str (chroma example_distance [rbac_record])
           "How do I secure k8s?" 1 = Returned result
    /\ contexts result = [to_context example_distance "How do I secure k8s?" rbac_record]
    /\ sources_used result = 1%nat
    /\ startswith (answer result) "Based on Moses Omondi's expertise" = true
    /\ contains ("**Practical Recommendations:**" +:+ LF
                 +:+ kubernetes_recommendations +:+ LF) (answer result) = true
    /\ contains ("**Key Information:**" +:+ LF
                 +:+ "• Relevant technical documentation and implementation guides available")
                (answer result) = true.
Proof. eexists. split; [vm_compute; reflexivity|]. by vm_compute. Qed.

End RagSpec.

(** ** More about computations that can raise *)

Module ExcMore.

Import ExcFacts.

Lemma for_each_raises {A B} (f : A -> outcome B) (l : list A) (a : A) (e : exn) :
  a ∈ l -> f a = Raised e -> exists e', for_each f l = Raised e'.
Proof.
  induction l as [|b l IH]; intros Hin Hf; [by apply elem_of_nil in Hin|].
  cbn [for_each]. destruct (f b) as [x|e0] eqn:Hb; [|by exists e0].
  rewrite ret_bind. apply elem_of_cons in Hin as [->|Hin]; [congruence|].
  destruct (IH Hin Hf) as [e' ->]. by exists e'.
Qed.

Lemma for_each_nil {A B} (f : A -> outcome B) : for_each f [] = Returned [].
Proof. reflexivity. Qed.

End ExcMore.

(** ** More about retrieval and answers *)

Module RagMore.

Import Rag PyFacts ExcFacts ExcMore RagSpec.

(** *** The shape of the store's answer *)

(** The contexts of an answer whose first lists are [docs], [metas] and
    [dists]: position by position. *)
Definition contexts_of (docs : list string) (metas : list (gmap string value))
    (dists : list float) : list RetrievedContext :=
  zip_with (fun doc md => {| content := doc; metadata := md.1;
                             relevance_score := (1 - md.2)%float |})
           docs (zip metas dists).

Section Answer.

Variable results : QueryResult.
Variable docs : list string.
Variable metas : list (gmap string value).
Variable dists : list float.
Hypothesis Hdocs : documents results !! 0%nat = Some docs.
Hypothesis Hmetas : metadatas results !! 0%nat = Some metas.
Hypothesis Hdists : distances results !! 0%nat = Some dists.

Lemma context_at_returned (i : nat) (doc : string) (meta : gmap string value)
    (dist : float) :
  docs !! i = Some doc -> metas !! i = Some meta -> dists !! i = Some dist ->
  context_at results i
  = Returned {| content := doc; metadata := meta;
                relevance_score := (1 - dist)%float |}.
Proof.
  intros Hdoc Hmeta Hdist. unfold context_at, index.
  by rewrite Hdocs, ret_bind, Hdoc, ret_bind, Hmetas, ret_bind, Hmeta, ret_bind,
    Hdists, ret_bind, Hdist, ret_bind.
Qed.

Lemma context_at_raised (i : nat) :
  (i < length docs)%nat -> (length metas <= i \/ length dists <= i)%nat ->
  exists e, context_at results i = Raised e.
Proof.
  intros [doc Hdoc]%lookup_lt_is_Some_2 Hshort. unfold context_at, index.
  rewrite Hdocs, ret_bind, Hdoc, ret_bind, Hmetas, ret_bind.
  destruct (metas !! i) as [meta|] eqn:Hmeta; [|by eexists].
  rewrite ret_bind, Hdists, ret_bind.
  destruct (dists !! i) as [dist|] eqn:Hdist; [|by eexists].
  apply lookup_lt_Some in Hmeta, Hdist. lia.
Qed.

Lemma loop_contexts (start n : nat) :
  (start + n <= length docs)%nat -> (start + n <= length metas)%nat ->
  (start + n <= length dists)%nat ->
  for_each (context_at results) (seq start n)
  = Returned (take n (drop start (contexts_of docs metas dists))).
Proof.
  revert start. induction n as [|n IH]; intros start Hd Hm Hs; [done|].
  destruct (lookup_lt_is_Some_2 docs start) as [doc Hdoc]; [lia|].
  destruct (lookup_lt_is_Some_2 metas start) as [meta Hmeta]; [lia|].
  destruct (lookup_lt_is_Some_2 dists start) as [dist Hdist]; [lia|].
  assert (contexts_of docs metas dists !! start
          = Some {| content := doc; metadata := meta;
                    relevance_score := (1 - dist)%float |}) as Hctx.
  { unfold contexts_of. apply lookup_zip_with_Some.
    exists doc, (meta, dist). split; [done|]. split; [done|].
    by apply lookup_zip_Some. }
  cbn [seq for_each].
  rewrite (context_at_returned start doc meta dist) by done.
  rewrite ret_bind, (IH (S start)) by lia.
  by rewrite ret_bind, (drop_S _ _ _ Hctx).
Qed.

End Answer.

Lemma contexts_of_length (docs : list string) (metas : list (gmap string value))
    (dists : list float) :
  (length docs <= length metas)%nat -> (length docs <= length dists)%nat ->
  length (contexts_of docs metas dists) = length docs.
Proof.
  intros Hm Hd. unfold contexts_of. rewrite length_zip_with, length_zip. lia.
Qed.

Section WithCollection.

Variable collection : Collection.

(** X1. When the store answers with as many metadata and distances as
    documents, retrieval returns one context per document, in the order of
    the answer: the i-th context has the i-th document, the i-th metadata
    and one minus the i-th distance. *)
Theorem retrieve_context_in_order (query : string) (n_results : Z)
    (results : QueryResult) (docs : list string)
    (metas : list (gmap string value)) (dists : list float) :
  coll_query collection query n_results None = Returned results ->
  documents results !! 0%nat = Some docs ->
  metadatas results !! 0%nat = Some metas ->
  distances results !! 0%nat = Some dists ->
  (length docs <= length metas)%nat ->
  (length docs <= length dists)%nat ->
  retrieve_context collection query n_results
  = Returned (contexts_of docs metas dists)
  /\ length (contexts_of docs metas dists) = length docs.
Proof.
  intros Hq Hdocs Hmetas Hdists Hm Hd.
  split; [|by apply contexts_of_length].
  rewrite retrieve_context_cases, Hq, Hdocs. cbn [default from_option id].
  rewrite (loop_contexts results docs metas dists) by (done || (simpl; lia)).
  by rewrite drop_0, <- (contexts_of_length docs metas dists), firstn_all.
Qed.

(** X2. When the store answers with fewer metadata or fewer distances
    than documents, retrieval returns the empty list: the contexts built
    before the missing entry are dropped with it. *)
Theorem retrieve_context_all_or_nothing (query : string) (n_results : Z)
    (results : QueryResult) (docs : list string)
    (metas : list (gmap string value)) (dists : list float) :
  coll_query collection query n_results None = Returned results ->
  documents results !! 0%nat = Some docs ->
  metadatas results !! 0%nat = Some metas ->
  distances results !! 0%nat = Some dists ->
  (length metas < length docs \/ length dists < length docs)%nat ->
  retrieve_context collection query n_results = Returned [].
Proof.
  intros Hq Hdocs Hmetas Hdists Hshort.
  rewrite retrieve_context_cases, Hq, Hdocs. cbn [default from_option id].
  set (i := (length metas `min` length dists)%nat).
  destruct (context_at_raised results docs metas dists Hdocs Hmetas Hdists i)
    as [e He]; [lia..|].
  destruct (for_each_raises (context_at results) (seq 0 (length docs)) i e)
    as [e' ->]; [|done..].
  apply elem_of_seq. lia.
Qed.

(** X3. For k at most 0, retrieval within a category returns the empty
    list whatever the store answers; for a well-formed answer and any k it
    returns the first k contexts of the answer, in order. *)
Theorem search_by_category_first_k (query category : string) (n_results : Z) :
  (n_results <= 0 ->
   search_by_category collection query category n_results = Returned [])
  /\ (forall results docs metas dists,
        coll_query collection query (n_results * 2) (Some category)
          = Returned results ->
        documents results !! 0%nat = Some docs ->
        metadatas results !! 0%nat = Some metas ->
        distances results !! 0%nat = Some dists ->
        (length docs <= length metas)%nat ->
        (length docs <= length dists)%nat ->
        search_by_category collection query category n_results
        = Returned (take (Z.to_nat n_results) (contexts_of docs metas dists))).
Proof.
  split.
  - intros Hn. rewrite search_by_category_cases.
    destruct (coll_query _ _ _ _) as [results|e]; [|done].
    by replace (Z.to_nat (Z.min n_results _)) with 0%nat by lia.
  - intros results docs metas dists Hq Hdocs Hmetas Hdists Hm Hd.
    rewrite search_by_category_cases, Hq, Hdocs. cbn [default from_option id].
    rewrite (loop_contexts results docs metas dists) by (done || (simpl; lia)).
    rewrite drop_0. f_equal.
    replace (Z.to_nat (Z.min n_results (Z.of_nat (length docs))))
      with (Z.to_nat n_results `min` length (contexts_of docs metas dists))%nat
      by (rewrite contexts_of_length by done; lia).
    by rewrite <- take_take, firstn_all.
Qed.

End WithCollection.

(** *** The context string *)

(** Metadata whose category and source, when present, are text; a
    context with such metadata. *)
Definition text_values (m : gmap string value) : Prop :=
  (forall n, m !! "category" <> Some (VInt n))
  /\ (forall n, m !! "source" <> Some (VInt n)).

Definition text_metadata (ctx : RetrievedContext) : Prop :=
  text_values (metadata ctx).

(** A context whose category or source is an integer. *)
Definition integer_metadata (ctx : RetrievedContext) : Prop :=
  (exists n, metadata ctx !! "category" = Some (VInt n))
  \/ (exists n, metadata ctx !! "source" = Some (VInt n)).

Lemma integer_metadata_not_text (ctx : RetrievedContext) :
  integer_metadata ctx -> ~ text_metadata ctx.
Proof.
  intros [[n Hn] | [n Hn]] [Hcategory Hsource];
    [by apply (Hcategory n) | by apply (Hsource n)].
Qed.

(** The category and the source a context is shown with. *)
Definition shown_category (ctx : RetrievedContext) : string :=
  match metadata ctx !! "category" with
  | Some (VStr s) => s
  | _ => "general"
  end.

Definition shown_source (ctx : RetrievedContext) : string :=
  match metadata ctx !! "source" with
  | Some (VStr s) => s
  | _ => "Unknown"
  end.

Lemma classic_text (ctx : RetrievedContext) :
  text_metadata ctx \/ ~ text_metadata ctx.
Proof.
  unfold text_metadata, text_values.
  destruct (metadata ctx !! "category") as [[category|n]|];
    [| right; intros [Hc _]; by destruct (Hc n) |];
    (destruct (metadata ctx !! "source") as [[source|m]|];
     [| right; intros [_ Hs]; by destruct (Hs m) |]);
    left; split; intros k; congruence.
Qed.

Section WithStrings.
Context `{PyStr}.

(** The header line and the text of a context, as the context string
    shows them. *)
Definition block (i : nat) (ctx : RetrievedContext) : string :=
  "[Source " +:+ pretty i +:+ " - "
  +:+ title (replace_char "_" " " (shown_category ctx)) +:+ "] ("
  +:+ path_name (shown_source ctx) +:+ "):" +:+ esc_n
  +:+ content ctx +:+ esc_n +:+ esc_n.

Fixpoint blocks (i : nat) (contexts : list RetrievedContext) : string :=
  match contexts with
  | [] => ""
  | ctx :: rest => block i ctx +:+ blocks (S i) rest
  end.

Lemma source_block_text (i : nat) (ctx : RetrievedContext) :
  text_metadata ctx -> source_block i ctx = Returned (block i ctx).
Proof.
  intros [Hcategory Hsource]. unfold source_block, block, shown_category, shown_source.
  destruct (metadata ctx !! "category") as [[category|n]|];
    [| by destruct (Hcategory n) |];
    destruct (metadata ctx !! "source") as [[source|m]|];
    try (by destruct (Hsource m)); reflexivity.
Qed.

Lemma source_block_not_text (i : nat) (ctx : RetrievedContext) :
  ~ text_metadata ctx ->
  source_block i ctx = Raised AttributeError
  \/ source_block i ctx = Raised TypeError.
Proof.
  intros Hnot. unfold source_block.
  destruct (metadata ctx !! "category") as [[category|n]|] eqn:Hcategory;
    [| by left |];
    (destruct (metadata ctx !! "source") as [[source|m]|] eqn:Hsource;
     [| by right |]);
    destruct Hnot; split; intros k; congruence.
Qed.

Lemma append_sources_text (contexts : list RetrievedContext) :
  forall (i : nat) (acc : string),
  Forall text_metadata contexts ->
  append_sources i contexts acc = Returned (acc +:+ blocks i contexts).
Proof.
  induction contexts as [|ctx contexts IH]; intros i acc Hall;
    cbn [append_sources blocks].
  - by rewrite app_empty_r.
  - apply Forall_cons in Hall as [Hctx Hall].
    rewrite (source_block_text i ctx Hctx), ret_bind, (IH _ _ Hall).
    by rewrite string_app_assoc.
Qed.

Lemma append_sources_not_text (contexts : list RetrievedContext) :
  forall (i : nat) (acc : string),
  Exists (fun ctx => ~ text_metadata ctx) contexts ->
  append_sources i contexts acc = Raised AttributeError
  \/ append_sources i contexts acc = Raised TypeError.
Proof.
  induction contexts as [|ctx contexts IH]; intros i acc Hex;
    [by apply Exists_nil in Hex|].
  cbn [append_sources].
  destruct (source_block i ctx) as [text|e] eqn:Hblock.
  - rewrite ret_bind. apply IH. apply Exists_cons in Hex as [Hctx|Hrest]; [|done].
    destruct (source_block_not_text i ctx Hctx); congruence.
  - destruct (classic_text ctx) as [Hctx|Hctx].
    + by rewrite (source_block_text i ctx Hctx) in Hblock.
    + destruct (source_block_not_text i ctx Hctx) as [Heq|Heq];
        rewrite Heq in Hblock; injection Hblock as <-; auto.
Qed.

(** X4. For contexts whose category and source are text or absent, the
    context string is the header followed by one block per context, in
    the order given and numbered from 1; a missing category is shown as
    that of "general" and a missing source as "Unknown". *)
Theorem prepare_context_string_blocks (contexts : list RetrievedContext) :
  Forall text_metadata contexts ->
  prepare_context_string contexts
  = Returned match contexts with
             | [] => no_context_found
             | _ => "RELEVANT KNOWLEDGE FROM MOSES'S EXPERTISE:" +:+ esc_n
                    +:+ esc_n +:+ blocks 1 contexts
             end.
Proof.
  intros Hall. destruct contexts as [|ctx contexts]; [done|].
  unfold prepare_context_string. rewrite (append_sources_text _ _ _ Hall).
  by rewrite !string_app_assoc.
Qed.

(** X5. One context whose category or source is an integer is enough for
    the context string to fail: the call raises AttributeError or
    TypeError and returns nothing, whatever the other contexts are, and a
    query that retrieved these contexts raises the same exception instead
    of answering. *)
Theorem prepare_context_string_raises (contexts : list RetrievedContext) :
  Exists integer_metadata contexts ->
  exists e,
    (e = AttributeError \/ e = TypeError)
    /\ prepare_context_string contexts = Raised e
    /\ (forall collection question n_contexts,
          retrieve_context collection question n_contexts = Returned contexts ->
          query collection question n_contexts = Raised e).
Proof.
  intros Hex.
  assert (prepare_context_string contexts = Raised AttributeError
          \/ prepare_context_string contexts = Raised TypeError) as Hraises.
  { destruct contexts as [|ctx contexts]; [by apply Exists_nil in Hex|].
    apply append_sources_not_text.
    apply (Exists_impl _ _ _ Hex). intros c. apply integer_metadata_not_text. }
  destruct Hraises as [Hraises | Hraises]; eexists;
    (split; [|split; [exact Hraises|]]); auto;
    intros collection question n_contexts Hfound; unfold query;
    by rewrite Hfound, ret_bind, Hraises.
Qed.

(** *** Key points and security points *)

(** The lines [_extract_key_points] keeps, and what it makes of one. *)
Definition is_key_line (line : string) : bool :=
  negb (String.eqb (strip line) "")
  && negb (startswith line "RELEVANT KNOWLEDGE")
  && negb (startswith line "[Source")
  && any_in ["security"; "implement"; "deploy"; "configure"; "best practice"]
            (lower line).

Definition key_point (line : string) : string :=
  "• " +:+ slice_to 200 (strip line).

Lemma key_points_loop_take (lines : list string) :
  forall key_points : list string,
  (length key_points < 3)%nat ->
  key_points_loop lines key_points
  = (key_points
     ++ take (3 - length key_points)
             (key_point <$> List.filter is_key_line lines))%list.
Proof.
  induction lines as [|line lines IH]; intros key_points Hlen;
    cbn [key_points_loop List.filter].
  - by rewrite fmap_nil, take_nil, app_nil_r.
  - fold (is_key_line line). destruct (is_key_line line); [|by apply IH].
    fold (key_point line). rewrite fmap_cons.
    destruct (3 - length key_points)%nat as [|k] eqn:Hk; [lia|].
    cbn [take]. rewrite length_app. cbn [length].
    destruct (Nat.leb_spec 3 (length key_points + 1)) as [Hfull|Hmore].
    + replace k with 0%nat by lia. by rewrite take_0.
    + rewrite IH by (rewrite length_app; simpl; lia).
      rewrite length_app. cbn [length].
      replace (3 - (length key_points + 1))%nat with k by lia.
      by rewrite <- app_assoc.
Qed.

(** X6. The key points are made of the first three lines of the context
    string, in its order, that are not blank, are no header line and hold
    one of the five keywords; each is shown after a bullet, stripped and
    cut to its first 200 characters (a line of at most 200 characters is
    kept whole, whatever the number of its bytes), and the canned point
    stands in when there is none. *)
Theorem extract_key_points_first_three (context : string) :
  exists points,
    points = take 3 (key_point <$> List.filter is_key_line (split esc_n context))
    /\ (length points <= 3)%nat
    /\ _extract_key_points context
       = match points with
         | [] => "• Relevant technical documentation and implementation guides available"
         | _ => join LF points
         end
    /\ Forall (fun point =>
                 exists line rest,
                   In line (split esc_n context)
                   /\ is_key_line line = true
                   /\ point = "• " +:+ slice_to 200 (strip line)
                   /\ strip line = slice_to 200 (strip line) +:+ rest
                   /\ len (slice_to 200 (strip line))
                      = (200 `min` len (strip line))%nat)
              points.
Proof.
  eexists. split; [reflexivity|].
  split; [rewrite length_take; lia|].
  split.
  { unfold _extract_key_points. rewrite key_points_loop_take by (simpl; lia).
    rewrite app_nil_l. change (3 - length [])%nat with 3%nat.
    by destruct (take 3 _). }
  apply Forall_forall. intros point Hpoint%subseteq_take.
  apply list_elem_of_fmap in Hpoint as (line & -> & Hline).
  apply list_elem_of_In, filter_In in Hline as [Hin Hkey].
  destruct (slice_to_prefix 200 (strip line)) as [rest Hrest].
  exists line, rest. repeat split; [done..|]. apply len_slice_to.
Qed.

(** The lines [_extract_security_points] keeps, and what it makes of
    one. *)
Definition is_security_line (line : string) : bool :=
  any_in ["security"; "secure"; "vulnerability"; "threat"; "risk";
          "compliance"; "audit"] (lower line)
  && negb (String.eqb (strip line) "")
  && negb (startswith (strip line) "[Source").

Definition security_point (line : string) : string :=
  "• " +:+ slice_to 150 (strip line).

Lemma security_points_loop_take (lines : list string) :
  forall security_points : list string,
  (length security_points < 2)%nat ->
  security_points_loop lines security_points
  = (security_points
     ++ take (2 - length security_points)
             (security_point <$> List.filter is_security_line lines))%list.
Proof.
  induction lines as [|line lines IH]; intros security_points Hlen;
    cbn [security_points_loop List.filter].
  - by rewrite fmap_nil, take_nil, app_nil_r.
  - cbn zeta. fold (is_security_line line).
    destruct (is_security_line line); [|by apply IH].
    fold (security_point line). rewrite fmap_cons.
    destruct (2 - length security_points)%nat as [|k] eqn:Hk; [lia|].
    cbn [take]. rewrite length_app. cbn [length].
    destruct (Nat.leb_spec 2 (length security_points + 1)) as [Hfull|Hmore].
    + replace k with 0%nat by lia. by rewrite take_0.
    + rewrite IH by (rewrite length_app; simpl; lia).
      rewrite length_app. cbn [length].
      replace (2 - (length security_points + 1))%nat with k by lia.
      by rewrite <- app_assoc.
Qed.

(** X7. The security points are made of the first two lines of the
    context string, in its order, that hold one of the seven security
    keywords, are not blank and do not start, once stripped, with
    "[Source"; each is shown after a bullet, stripped and cut to its
    first 150 characters (a line of at most 150 characters is kept whole,
    whatever the number of its bytes), and the two canned points stand in
    when there is none. *)
Theorem extract_security_points_first_two (context : string) :
  exists points,
    points = take 2 (security_point
                       <$> List.filter is_security_line (split esc_n context))
    /\ (length points <= 2)%nat
    /\ _extract_security_points context
       = match points with
         | [] => "• Always prioritize security in implementation" +:+ LF +:+
                 "• Regular security reviews and updates recommended"
         | _ => join LF points
         end
    /\ Forall (fun point =>
                 exists line rest,
                   In line (split esc_n context)
                   /\ is_security_line line = true
                   /\ point = "• " +:+ slice_to 150 (strip line)
                   /\ strip line = slice_to 150 (strip line) +:+ rest
                   /\ len (slice_to 150 (strip line))
                      = (150 `min` len (strip line))%nat)
              points.
Proof.
  eexists. split; [reflexivity|].
  split; [rewrite length_take; lia|].
  split.
  { unfold _extract_security_points.
    rewrite security_points_loop_take by (simpl; lia).
    rewrite app_nil_l. change (2 - length [])%nat with 2%nat.
    by destruct (take 2 _). }
  apply Forall_forall. intros point Hpoint%subseteq_take.
  apply list_elem_of_fmap in Hpoint as (line & -> & Hline).
  apply list_elem_of_In, filter_In in Hline as [Hin Hkey].
  destruct (slice_to_prefix 150 (strip line)) as [rest Hrest].
  exists line, rest. repeat split; [done..|]. apply len_slice_to.
Qed.

(** *** The recommendations *)

(** The decision list of [_generate_recommendations] as an ordered table:
    each bullet list with the keywords that select it. *)
Definition recommendation_rules : list (string * list string) :=
  [ (kubernetes_recommendations, ["kubernetes"; "k8s"]);
    (cicd_recommendations, ["ci/cd"; "pipeline"]);
    (cloud_recommendations, ["aws"; "cloud"]);
    (ai_recommendations, ["ai"; "ml"; "model"]) ].

Definition keywords_match (text : string) (rule : string * list string) : bool :=
  any_in (snd rule) text.

Definition recommend_by_rules (text : string) : string :=
  match List.find (keywords_match text) recommendation_rules with
  | Some rule => fst rule
  | None => general_recommendations
  end.

Lemma generate_recommendations_refines (query context : string) :
  _generate_recommendations query context = recommend_by_rules (lower query).
Proof.
  unfold _generate_recommendations, recommend_by_rules, recommendation_rules,
    keywords_match, any_in.
  cbn [List.find snd fst existsb]. rewrite !orb_false_r.
  repeat (match goal with |- context [contains ?k ?s] =>
            destruct (contains k s); cbn [orb]; try reflexivity end).
Qed.

(** X8. The recommendations are chosen by the first of four keyword
    groups, in the order Kubernetes, CI/CD, cloud, AI, that has a keyword
    occurring in the lower-cased question, and are the general list when
    none has; they depend neither on the context nor on the case of the
    question. *)
Theorem generate_recommendations_first_match (query context : string) :
  _generate_recommendations query context = recommend_by_rules (lower query)
  /\ (forall i rule,
        recommendation_rules !! i = Some rule ->
        keywords_match (lower query) rule = true ->
        (forall j earlier, (j < i)%nat ->
           recommendation_rules !! j = Some earlier ->
           keywords_match (lower query) earlier = false) ->
        _generate_recommendations query context = fst rule)
  /\ ((forall rule, In rule recommendation_rules ->
                    keywords_match (lower query) rule = false) ->
      _generate_recommendations query context = general_recommendations)
  /\ (forall other_query other_context,
        lower other_query = lower query ->
        _generate_recommendations other_query other_context
        = _generate_recommendations query context).
Proof.
  split; [apply generate_recommendations_refines|].
  split.
  { intros i rule Hi Hm Hbefore. rewrite generate_recommendations_refines.
    unfold recommend_by_rules.
    by rewrite (DocumentProcessorSpec.find_first_match _ _ i rule Hi Hm Hbefore). }
  split.
  { intros Hnone. rewrite generate_recommendations_refines.
    unfold recommend_by_rules.
    by rewrite DocumentProcessorSpec.find_no_match. }
  intros other_query other_context Heq.
  by rewrite !generate_recommendations_refines, Heq.
Qed.

End WithStrings.

(** *** The knowledge base summary, whatever the store *)

(** The summary [get_knowledge_base_info] returns on a failure. *)
Definition error_info (e : exn) : KnowledgeBaseInfo :=
  {| total_documents := 0; categories := []; status := "error";
     error := Some e |}.

Lemma knowledge_base_info_cases (collection : Collection) :
  get_knowledge_base_info collection
  = Returned
      match coll_count collection with
      | Raised e => error_info e
      | Returned count =>
          match coll_get collection 100 with
          | Raised e => error_info e
          | Returned sample =>
              match sorted (elements (sample_categories sample)) with
              | Raised e => error_info e
              | Returned categories =>
                  {| total_documents := count; categories := categories;
                     status := "active"; error := None |}
              end
          end
      end.
Proof.
  unfold get_knowledge_base_info.
  destruct (coll_count collection) as [count|e]; [|done]. rewrite ret_bind.
  destruct (coll_get collection 100) as [sample|e]; [|done]. rewrite ret_bind.
  by destruct (sorted _).
Qed.

(** X10. The summary of the knowledge base is always returned, never
    raised.  When counting or sampling the store fails, the summary has
    the status "error", records the exception and reports 0 documents and
    no category; otherwise it has the status "active" or "error", and an
    active summary reports the count of the store. *)
Theorem knowledge_base_info_never_raises (collection : Collection) :
  exists info,
    get_knowledge_base_info collection = Returned info
    /\ (forall e, coll_count collection = Raised e -> info = error_info e)
    /\ (forall count e,
          coll_count collection = Returned count ->
          coll_get collection 100 = Raised e -> info = error_info e)
    /\ ((status info = "active" /\ error info = None
         /\ coll_count collection = Returned (total_documents info))
        \/ (exists e, info = error_info e)).
Proof.
  eexists. split; [apply knowledge_base_info_cases|].
  split; [by intros e ->|].
  split; [by intros count e -> ->|].
  destruct (coll_count collection) as [count|e]; [|right; eauto].
  destruct (coll_get collection 100) as [sample|e]; [|right; eauto].
  destruct (sorted _) as [l|e]; [left; done | right; eauto].
Qed.

Lemma sorted_mixed (values : list value) (s : string) (n : Z) :
  VStr s ∈ values -> VInt n ∈ values -> sorted values = Raised TypeError.
Proof.
  intros Hs Hn. unfold sorted.
  assert (as_strings values = None) as ->.
  { apply eq_None_not_Some. intros Hsome. unfold as_strings in Hsome.
    rewrite mapM_is_Some, Forall_forall in Hsome.
    by destruct (Hsome _ Hn). }
  assert (as_ints values = None) as ->; [|done].
  apply eq_None_not_Some. intros Hsome. unfold as_ints in Hsome.
  rewrite mapM_is_Some, Forall_forall in Hsome.
  by destruct (Hsome _ Hs).
Qed.

(** X11. On the reference collection, when one of the first 100 records
    has a text category and another an integer category, sorting the
    categories fails and the summary is the error summary: status
    "error", TypeError recorded, 0 documents and no category, whatever
    the number of records. *)
Theorem knowledge_base_info_mixed_categories
    (distance : string -> string -> float) (records : list record)
    (r1 r2 : record) (s : string) (n : Z) :
  r1 ∈ take 100 records -> rec_metadata r1 !! "category" = Some (VStr s) ->
  r2 ∈ take 100 records -> rec_metadata r2 !! "category" = Some (VInt n) ->
  get_knowledge_base_info (chroma distance records)
  = Returned (error_info TypeError).
Proof.
  intros Hr1 Hs Hr2 Hn. rewrite knowledge_base_info_cases.
  cbn [coll_count coll_get chroma]. change (Z.to_nat 100) with 100%nat.
  rewrite (sorted_mixed _ s n); [done| |];
    apply elem_of_elements, sample_categories_elem_of;
    [exists (rec_metadata r1) | exists (rec_metadata r2)];
    (split; [by apply list_elem_of_fmap_2 | done]).
Qed.

(** *** The expertise summary *)

(** The line about the knowledge base. *)
Definition knowledge_base_line (count : Z) : string :=
  esc_n +:+ "📚 **Knowledge Base:** " +:+ pretty count
  +:+ " documented experiences and implementations".

(** X12. The expertise summary is always returned, and the line about
    the knowledge base is appended to the fixed text exactly when the
    summary of the knowledge base reports a positive number of documents:
    when the store counts a positive number of chunks, lists its first
    100 metadata and their categories can be sorted, the summary is the
    fixed text followed by the line that names that count; when the count
    is not positive or any of the three steps fails, it is the fixed text
    alone.  The two never coincide. *)
Theorem expertise_summary_cases (collection : Collection) :
  exists info,
    get_knowledge_base_info collection = Returned info
    /\ get_expertise_summary collection
       = Returned (if 0 <? total_documents info
                   then expertise_text
                        +:+ knowledge_base_line (total_documents info)
                   else expertise_text)
    /\ (forall count sample listed,
          coll_count collection = Returned count ->
          coll_get collection 100 = Returned sample ->
          sorted (elements (sample_categories sample)) = Returned listed ->
          0 < count ->
          get_expertise_summary collection
          = Returned (expertise_text +:+ knowledge_base_line count))
    /\ (forall count,
          coll_count collection = Returned count -> count <= 0 ->
          get_expertise_summary collection = Returned expertise_text)
    /\ (forall e, coll_count collection = Raised e ->
          get_expertise_summary collection = Returned expertise_text)
    /\ (forall e, coll_get collection 100 = Raised e ->
          get_expertise_summary collection = Returned expertise_text)
    /\ (forall sample e,
          coll_get collection 100 = Returned sample ->
          sorted (elements (sample_categories sample)) = Raised e ->
          get_expertise_summary collection = Returned expertise_text)
    /\ (forall count, expertise_text +:+ knowledge_base_line count <> expertise_text).
Proof.
  eexists. split; [apply knowledge_base_info_cases|].
  unfold get_expertise_summary. rewrite knowledge_base_info_cases, ret_bind.
  split; [by destruct (0 <? _)|].
  split.
  { intros count sample listed -> -> -> Hpos. cbn [total_documents].
    by destruct (Z.ltb_spec 0 count); [|lia]. }
  split.
  { intros count -> Hzero.
    destruct (coll_get collection 100) as [sample|e]; [|done].
    destruct (sorted _) as [listed|e]; [|done]. cbn [total_documents].
    by destruct (Z.ltb_spec 0 count); [lia|]. }
  split; [by intros e ->|].
  split.
  { intros e ->. by destruct (coll_count collection). }
  split.
  { intros sample e -> ->. by destruct (coll_count collection). }
  intros count Heq. apply (f_equal String.length) in Heq.
  rewrite string_length_app in Heq. unfold knowledge_base_line, esc_n in Heq.
  rewrite !app_cons in Heq. cbn [String.length] in Heq. lia.
Qed.

Section Reference.

Context `{PyStr}.
Variable distance : string -> string -> float.

(** X9. On the reference collection, when every stored record has
    metadata, with a category and a source that are text or absent, and k
    is below 2^32 (the reference collection answers for any k; a store
    that takes k as a 32-bit number refuses a larger one), a query is
    always answered: its contexts are the nearest records, their number
    is the smaller of k and the number of records, and the answer is
    built from their context string. *)
Theorem query_answers_on_text_store (records : list record)
    (question : string) (n_contexts : Z) :
  Forall (fun r => rec_metadata r <> ∅ /\ text_values (rec_metadata r)) records ->
  n_contexts < 4294967296 ->
  exists result context_string,
    query (chroma distance records) question n_contexts = Returned result
    /\ contexts result
       = to_context distance question
           <$> nearest distance records question n_contexts None
    /\ sources_used result = (Z.to_nat n_contexts `min` length records)%nat
    /\ query_text result = question
    /\ prepare_context_string (contexts result) = Returned context_string
    /\ answer result = generate_response question context_string.
Proof.
  intros Htext _.
  set (found := to_context distance question
                  <$> nearest distance records question n_contexts None).
  assert (Forall text_metadata found) as Hfound.
  { apply Forall_fmap, Forall_forall. intros r [Hr _]%nearest_elem_of.
    rewrite Forall_forall in Htext. by apply Htext. }
  unfold query. rewrite retrieve_context_reference, ret_bind. fold found.
  destruct (prepare_context_string found) as [context_string|e] eqn:Hprepare.
  - rewrite ret_bind. eexists _, context_string.
    split; [reflexivity|]. cbn [contexts sources_used query_text answer].
    repeat split; [|done].
    unfold found. by rewrite length_fmap, nearest_length.
  - destruct found as [|ctx found']; [done|].
    unfold prepare_context_string in Hprepare.
    by rewrite (append_sources_text _ _ _ Hfound) in Hprepare.
Qed.

End Reference.

(** *** Runs on the example collection *)

(** The three records of the example collection, nearest first. *)
Definition nearest_first : list record :=
  [rbac_record; iam_record; pipeline_record].

Lemma retrieve_context_in_order_witness :
  retrieve_context example_collection "How do I secure k8s?" 3
  = Returned (contexts_of (rec_document <$> nearest_first)
                          (rec_metadata <$> nearest_first)
                          [0.25; 0.5; 2]%float)
  /\ length (contexts_of (rec_document <$> nearest_first)
                         (rec_metadata <$> nearest_first)
                         [0.25; 0.5; 2]%float)
     = length (rec_document <$> nearest_first).
Proof.
  apply (retrieve_context_in_order example_collection "How do I secure k8s?" 3
           (results_of example_distance "How do I secure k8s?" nearest_first));
    [vm_compute; reflexivity | reflexivity | reflexivity | reflexivity
    | simpl; lia | simpl; lia].
Defined.

(** A store that answers with two documents and two distances, but the
    metadata of the first document only. *)
Definition short_answer : QueryResult :=
  {| documents := [[rbac_text; iam_text]];
     metadatas := [[rec_metadata rbac_record]];
     distances := [[0.25; 0.5]%float] |}.

Definition short_collection : Collection :=
  {| coll_query := fun _ _ _ => Returned short_answer;
     coll_count := Returned 2;
     coll_get := fun _ => Returned [rec_metadata rbac_record] |}.

Lemma retrieve_context_all_or_nothing_witness :
  retrieve_context short_collection "How do I secure k8s?" 2 = Returned [].
Proof.
  apply (retrieve_context_all_or_nothing short_collection
           "How do I secure k8s?" 2 short_answer
           [rbac_text; iam_text] [rec_metadata rbac_record] [0.25; 0.5]%float);
    [reflexivity | reflexivity | reflexivity | reflexivity | simpl; lia].
Defined.

Lemma search_by_category_first_k_witness :
  search_by_category example_collection "How do I secure k8s?" "cicd" 0
    = Returned []
  /\ search_by_category example_collection "How do I secure k8s?" "cicd" 1
     = Returned (take 1 (contexts_of [pipeline_text]
                                     [rec_metadata pipeline_record] [2%float])).
Proof.
  split.
  - destruct (search_by_category_first_k example_collection
                "How do I secure k8s?" "cicd" 0) as [Hzero _].
    apply Hzero. lia.
  - destruct (search_by_category_first_k example_collection
                "How do I secure k8s?" "cicd" 1) as [_ Hfirst].
    apply (Hfirst (results_of example_distance "How do I secure k8s?"
                              [pipeline_record]));
      [vm_compute; reflexivity | reflexivity | reflexivity | reflexivity
      | simpl; lia | simpl; lia].
Defined.

(** A context without metadata, and a context whose category is an
    integer. *)
Definition bare_context : RetrievedContext :=
  {| content := "Rotate the signing keys every quarter."; metadata := ∅;
     relevance_score := 0.5%float |}.

Definition numbered_context : RetrievedContext :=
  {| content := iam_text; metadata := {[ "category" := VInt 7 ]};
     relevance_score := 0.5%float |}.

Lemma text_values_example (m : gmap string value) :
  (forall v, m !! "category" = Some v -> exists s, v = VStr s) ->
  (forall v, m !! "source" = Some v -> exists s, v = VStr s) ->
  text_values m.
Proof.
  intros Hcategory Hsource. split; intros n Hn;
    [destruct (Hcategory _ Hn) as [s Hs] | destruct (Hsource _ Hn) as [s Hs]];
    discriminate.
Qed.

Lemma text_values_empty : text_values ∅.
Proof. apply text_values_example; intros v Hv; by rewrite lookup_empty in Hv. Qed.

Lemma prepare_context_string_blocks_witness :
  @prepare_context_string ascii_str [misleading_context; bare_context]
  = Returned
      ("RELEVANT KNOWLEDGE FROM MOSES'S EXPERTISE:" +:+ esc_n +:+ esc_n
       +:+ @blocks ascii_str 1 [misleading_context; bare_context])
  /\ @blocks ascii_str 1 [misleading_context; bare_context]
     = "[Source 1 - Infrastructure] (kubernetes-notes.md):" +:+ esc_n
       +:+ "No relevant context switches were found in the node logs."
       +:+ esc_n +:+ esc_n
       +:+ "[Source 2 - General] (Unknown):" +:+ esc_n
       +:+ "Rotate the signing keys every quarter." +:+ esc_n +:+ esc_n.
Proof.
  split; [|vm_compute; reflexivity].
  apply (@prepare_context_string_blocks ascii_str
           [misleading_context; bare_context]).
  repeat constructor; try apply text_values_empty;
    intros n Hn; vm_compute in Hn; discriminate.
Defined.

Lemma prepare_context_string_raises_witness :
  exists e,
    (e = AttributeError \/ e = TypeError)
    /\ @prepare_context_string ascii_str [bare_context; numbered_context]
       = Raised e
    /\ (forall collection question n_contexts,
          retrieve_context collection question n_contexts
            = Returned [bare_context; numbered_context] ->
          @query ascii_str collection question n_contexts = Raised e).
Proof.
  apply (@prepare_context_string_raises ascii_str
           [bare_context; numbered_context]).
  apply Exists_cons_tl, Exists_cons_hd. left. by exists 7.
Defined.

Lemma generate_recommendations_first_match_witness :
  @_generate_recommendations ascii_str "Which AWS services do I need for MLOps?"
     rbac_text
  = cloud_recommendations.
Proof.
  destruct (@generate_recommendations_first_match ascii_str
              "Which AWS services do I need for MLOps?" rbac_text)
    as (_ & Hfirst & _).
  apply (Hfirst 2%nat (cloud_recommendations, ["aws"; "cloud"])).
  - reflexivity.
  - vm_compute. reflexivity.
  - intros [|[|j]] earlier Hj Hearlier; [| |lia];
      injection Hearlier as <-; vm_compute; reflexivity.
Defined.

Lemma query_answers_on_text_store_witness :
  exists result context_string,
    @query ascii_str
       (chroma example_distance [pipeline_record; rbac_record; iam_record])
       "How do I secure k8s?" 2 = Returned result
    /\ contexts result
       = to_context example_distance "How do I secure k8s?"
           <$> nearest example_distance
                 [pipeline_record; rbac_record; iam_record]
                 "How do I secure k8s?" 2 None
    /\ sources_used result
       = (Z.to_nat 2
          `min` length [pipeline_record; rbac_record; iam_record])%nat
    /\ query_text result = "How do I secure k8s?"
    /\ @prepare_context_string ascii_str (contexts result)
       = Returned context_string
    /\ answer result
       = @generate_response ascii_str "How do I secure k8s?" context_string.
Proof.
  apply (@query_answers_on_text_store ascii_str example_distance); [|lia].
  repeat constructor; try (intros n Hn; vm_compute in Hn; discriminate);
    intros Hempty; apply (f_equal (lookup "category")) in Hempty;
    vm_compute in Hempty; discriminate.
Defined.

Lemma knowledge_base_info_never_raises_witness :
  get_knowledge_base_info (failing (StoreError "connection refused"))
  = Returned (error_info (StoreError "connection refused")).
Proof.
  destruct (knowledge_base_info_never_raises
              (failing (StoreError "connection refused")))
    as (info & -> & Hcount & _).
  f_equal. by apply Hcount.
Defined.

(** A record whose category is a number. *)
Definition numbered_record : record :=
  {| rec_id := "doc_3"; rec_document := iam_text;
     rec_metadata := {[ "category" := VInt 7 ]} |}.

Lemma knowledge_base_info_mixed_categories_witness :
  get_knowledge_base_info
    (chroma example_distance [rbac_record; numbered_record; pipeline_record])
  = Returned (error_info TypeError).
Proof.
  apply (knowledge_base_info_mixed_categories example_distance
           [rbac_record; numbered_record; pipeline_record]
           rbac_record numbered_record "security" 7).
  - apply list_elem_of_here.
  - reflexivity.
  - apply list_elem_of_further, list_elem_of_here.
  - reflexivity.
Defined.

Lemma expertise_summary_cases_witness :
  get_expertise_summary (failing (StoreError "connection refused"))
    = Returned expertise_text
  /\ get_expertise_summary example_collection
     = Returned (expertise_text +:+ knowledge_base_line 3).
Proof.
  split.
  - destruct (expertise_summary_cases (failing (StoreError "connection refused")))
      as (info & _ & _ & _ & _ & Hfails & _).
    by apply (Hfails (StoreError "connection refused")).
  - destruct (expertise_summary_cases example_collection)
      as (info & _ & _ & Hcounted & _).
    apply (Hcounted 3 (rec_metadata <$> [pipeline_record; rbac_record; iam_record])
             [VStr "cicd"; VStr "cloud_certification"; VStr "security"]);
      [reflexivity | reflexivity | vm_compute; reflexivity | lia].
Defined.

End RagMore.

(** ** More about the document processor *)

Module DocumentProcessorMore.

Import DocumentProcessor PyFacts ExcFacts DocumentProcessorSpec.

(** *** Ingestion *)

Section Ingestion.

Variable split_text : RecursiveCharacterTextSplitter -> string -> list string.

(** The chunks of one document. *)
Definition chunks_of_document (doc : Document) : list Document :=
  (fun chunk => {| page_content := chunk; metadata := metadata doc |})
    <$> split_text text_splitter (page_content doc).

Lemma split_documents_one (doc : Document) :
  split_documents split_text [doc] = chunks_of_document doc.
Proof. unfold split_documents. cbn [flat_map]. by rewrite app_nil_r. Qed.

Lemma chunks_of_flat_map (documents : list Document) :
  chunks_of split_text documents = flat_map chunks_of_document documents.
Proof.
  unfold chunks_of.
  assert (forall acc,
            foldl (fun chunks doc => (chunks ++ split_documents split_text [doc])%list)
                  acc documents
            = (acc ++ flat_map chunks_of_document documents)%list) as Hloop.
  { induction documents as [|doc documents IH]; intros acc; cbn [foldl flat_map].
    - by rewrite app_nil_r.
    - by rewrite IH, split_documents_one, app_assoc. }
  by rewrite Hloop.
Qed.

(** X14. The three lists handed to the store have the same length, the
    number of chunks.  The texts are the chunks of the documents in the
    order of the documents, and the metadata at the position of a chunk is
    the metadata of the document the chunk was split from. *)
Theorem chunks_carry_document_metadata (documents : list Document) :
  add_documents (add_request split_text documents)
  = flat_map (fun doc => split_text text_splitter (page_content doc)) documents
  /\ length (add_metadatas (add_request split_text documents))
     = length (add_documents (add_request split_text documents))
  /\ length (add_ids (add_request split_text documents))
     = length (add_documents (add_request split_text documents))
  /\ (forall i text md,
        add_documents (add_request split_text documents) !! i = Some text ->
        add_metadatas (add_request split_text documents) !! i = Some md ->
        exists doc,
          doc ∈ documents /\ md = metadata doc
          /\ text ∈ split_text text_splitter (page_content doc)).
Proof.
  cbn [add_request add_documents add_metadatas add_ids].
  change (map page_content) with (fmap (M:=list) page_content).
  change (map metadata) with (fmap (M:=list) metadata).
  change (map doc_id) with (fmap (M:=list) doc_id).
  rewrite chunks_of_flat_map.
  split.
  { induction documents as [|doc documents IH]; [done|]. cbn [flat_map].
    rewrite fmap_app, IH. f_equal. unfold chunks_of_document.
    rewrite <- list_fmap_compose. by rewrite list_fmap_id. }
  split; [by rewrite !length_fmap|].
  split; [by rewrite !length_fmap, length_seq|].
  intros i text md Htext Hmd.
  rewrite list_lookup_fmap in Htext. rewrite list_lookup_fmap in Hmd.
  destruct (flat_map chunks_of_document documents !! i) as [chunk|] eqn:Hchunk;
    [|done].
  injection Htext as <-. injection Hmd as <-.
  apply list_elem_of_lookup_2, list_elem_of_In, in_flat_map in Hchunk
    as (doc & Hdoc%list_elem_of_In & Hin%list_elem_of_In).
  unfold chunks_of_document in Hin.
  apply list_elem_of_fmap in Hin as (text & -> & Htext).
  by exists doc.
Qed.

(** The store after a series of ingestion calls, one per batch. *)
Fixpoint ingest_batches {Store : Type} (add : AddRequest -> Store -> outcome Store)
    (batches : list (list Document)) (store : Store) : outcome Store :=
  match batches with
  | [] => Returned store
  | documents :: rest =>
      store' ← ingest_documents split_text Store add documents store;
      ingest_batches add rest store'
  end.

Definition non_empty (documents : list Document) : bool :=
  match documents with [] => false | _ => true end.

(** X13. An ingestion call never raises.  On a store that records its
    [add] calls, a series of ingestion calls leaves exactly one [add] call
    per non-empty batch, in the order of the batches, and none for an
    empty batch; on a store whose [add] always fails, the store is left as
    it was. *)
Theorem ingestion_calls_add_once (batches : list (list Document)) :
  (forall log,
     ingest_batches recording_add batches log
     = Returned (log ++ (add_request split_text
                           <$> List.filter non_empty batches))%list)
  /\ (forall (Store : Type) (e : exn) (store : Store),
        ingest_batches (fun _ _ => Raised e) batches store = Returned store)
  /\ (forall (Store : Type) (add : AddRequest -> Store -> outcome Store)
             documents store,
        exists store',
          ingest_documents split_text Store add documents store
          = Returned store').
Proof.
  split; [|split].
  - induction batches as [|documents batches IH]; intros log;
      cbn [ingest_batches List.filter].
    + by rewrite fmap_nil, app_nil_r.
    + destruct documents as [|doc documents]; cbn [ingest_documents non_empty].
      * by rewrite ret_bind, IH.
      * unfold recording_add. cbn [try_except]. rewrite ret_bind, IH.
        by rewrite fmap_cons, <- app_assoc.
  - intros Store e. induction batches as [|documents batches IH]; intros store;
      cbn [ingest_batches]; [done|].
    destruct documents as [|doc documents]; cbn [ingest_documents try_except];
      by rewrite ret_bind, IH.
  - intros Store add documents store. unfold ingest_documents.
    destruct documents as [|doc documents]; [by eexists|].
    destruct (add _ store) as [store'|e]; by eexists.
Qed.

End Ingestion.

(** *** Loading files *)

(** The type each suffix of [file_processors] gives to its documents. *)
Definition kind_of_suffix : gmap string string :=
  {[ ".pdf" := "pdf"; ".docx" := "docx"; ".doc" := "docx";
     ".md" := "markdown"; ".txt" := "text"; ".yaml" := "text";
     ".yml" := "text"; ".json" := "text" ]}.

(** The text of a PDF whose pages have the texts [texts]. *)
Definition pages_text (texts : list string) : string :=
  foldr (fun text rest => text +:+ esc_n +:+ rest) "" texts.

(** The documents of an outcome, none when it raised. *)
Definition documents_or_none (o : outcome (list Document)) : list Document :=
  match o with
  | Returned documents => documents
  | Raised _ => []
  end.

Section Loading.
Context `{PyStr}.

Variable read_pdf : string -> outcome (list (outcome string)).
Variable read_docx : string -> outcome (list string).
Variable read_text : string -> outcome string.
Variable markdown_to_text : string -> outcome string.

(** At most one document, stamped with the path it was read from, the
    category of its file name and the type [kind]. *)
Definition stamped (kind file_path : string) (documents : list Document) : Prop :=
  (length documents <= 1)%nat
  /\ Forall (fun doc =>
               metadata doc !! "source" = Some (VStr file_path)
               /\ metadata doc !! "category"
                  = Some (VStr (_categorize_document (path_name file_path)))
               /\ metadata doc !! "type" = Some (VStr kind))
            documents.

Lemma stamped_nil (kind file_path : string) : stamped kind file_path [].
Proof. split; [simpl; lia | constructor]. Qed.

Lemma stamped_one (kind file_path : string) (doc : Document) :
  metadata doc !! "source" = Some (VStr file_path) ->
  metadata doc !! "category"
    = Some (VStr (_categorize_document (path_name file_path))) ->
  metadata doc !! "type" = Some (VStr kind) ->
  stamped kind file_path [doc].
Proof. intros. split; [simpl; lia | by repeat constructor]. Qed.

Lemma extract_pages_texts (texts : list string) :
  forall acc,
  extract_pages (Returned <$> texts) acc = Returned (acc +:+ pages_text texts).
Proof.
  induction texts as [|text texts IH]; intros acc; cbn [fmap list_fmap extract_pages pages_text foldr].
  - by rewrite app_empty_r.
  - rewrite ret_bind. fold (Returned (A:=string) <$> texts). rewrite IH.
    fold (pages_text texts). by rewrite !string_app_assoc.
Qed.

Lemma extract_pages_raised (pages : list (outcome string)) (e : exn) :
  forall acc, Raised e ∈ pages -> exists e', extract_pages pages acc = Raised e'.
Proof.
  induction pages as [|page pages IH]; intros acc Hin;
    [by apply elem_of_nil in Hin|].
  cbn [extract_pages]. destruct page as [text|e0]; [|by eexists].
  rewrite ret_bind. apply elem_of_cons in Hin as [?|Hin]; [done|]. by apply IH.
Qed.

(** X15. A PDF all of whose pages give their text yields one document:
    its text is the texts of the pages in page order, each followed by a
    backslash and the letter n, and its metadata records the number of
    pages.  A PDF with a page whose text cannot be extracted yields no
    document at all, and so does a file that cannot be opened. *)
Theorem process_pdf_all_pages_or_nothing (file_path : string) :
  (forall texts,
     read_pdf file_path = Returned (Returned <$> texts) ->
     process_pdf read_pdf file_path
     = Returned
         [ {| page_content := pages_text texts;
              metadata :=
                {[ "source" := VStr file_path;
                   "type" := VStr "pdf";
                   "category" := VStr (_categorize_document (path_name file_path));
                   "pages" := VInt (Z.of_nat (length texts)) ]} |} ])
  /\ (forall pages e,
        read_pdf file_path = Returned pages -> Raised e ∈ pages ->
        process_pdf read_pdf file_path = Returned [])
  /\ (forall e,
        read_pdf file_path = Raised e ->
        process_pdf read_pdf file_path = Returned []).
Proof.
  unfold process_pdf. split; [|split].
  - intros texts ->. rewrite ret_bind, extract_pages_texts, ret_bind.
    by rewrite length_fmap.
  - intros pages e -> Hin. rewrite ret_bind.
    by destruct (extract_pages_raised pages e "" Hin) as [e' ->].
  - by intros e ->.
Qed.

Lemma process_pdf_stamped (file_path : string) :
  exists documents,
    process_pdf read_pdf file_path = Returned documents
    /\ stamped "pdf" file_path documents.
Proof.
  unfold process_pdf. destruct (read_pdf file_path) as [pages|e];
    [|eexists; split; [done | apply stamped_nil]].
  rewrite ret_bind. destruct (extract_pages pages "") as [text|e];
    [|eexists; split; [done | apply stamped_nil]].
  eexists. split; [done|]. by apply stamped_one.
Qed.

Lemma process_docx_stamped (file_path : string) :
  exists documents,
    process_docx read_docx file_path = Returned documents
    /\ stamped "docx" file_path documents.
Proof.
  unfold process_docx. destruct (read_docx file_path) as [paragraphs|e];
    [|eexists; split; [done | apply stamped_nil]].
  eexists. split; [done|]. by apply stamped_one.
Qed.

Lemma process_markdown_stamped (file_path : string) :
  exists documents,
    process_markdown read_text markdown_to_text file_path = Returned documents
    /\ stamped "markdown" file_path documents.
Proof.
  unfold process_markdown. destruct (read_text file_path) as [md_content|e];
    [|eexists; split; [done | apply stamped_nil]].
  rewrite ret_bind. destruct (markdown_to_text md_content) as [text|e];
    [|eexists; split; [done | apply stamped_nil]].
  eexists. split; [done|]. by apply stamped_one.
Qed.

Lemma process_text_file_stamped (file_path : string) :
  exists documents,
    process_text_file read_text file_path = Returned documents
    /\ stamped "text" file_path documents.
Proof.
  unfold process_text_file. destruct (read_text file_path) as [content|e];
    [|eexists; split; [done | apply stamped_nil]].
  eexists. split; [done|]. by apply stamped_one.
Qed.

Lemma file_processors_stamped (sfx : string)
    (processor : string -> outcome (list Document)) :
  file_processors read_pdf read_docx read_text markdown_to_text !! sfx
    = Some processor ->
  exists kind,
    kind_of_suffix !! sfx = Some kind
    /\ forall file_path,
         exists documents,
           processor file_path = Returned documents
           /\ stamped kind file_path documents.
Proof.
  unfold file_processors. intros Hlookup.
  apply lookup_insert_Some in Hlookup as [[<- <-]|[_ Hlookup]];
    [exists "pdf"; split; [by vm_compute | apply process_pdf_stamped]|].
  apply lookup_insert_Some in Hlookup as [[<- <-]|[_ Hlookup]];
    [exists "docx"; split; [by vm_compute | apply process_docx_stamped]|].
  apply lookup_insert_Some in Hlookup as [[<- <-]|[_ Hlookup]];
    [exists "docx"; split; [by vm_compute | apply process_docx_stamped]|].
  apply lookup_insert_Some in Hlookup as [[<- <-]|[_ Hlookup]];
    [exists "markdown"; split; [by vm_compute | apply process_markdown_stamped]|].
  apply lookup_insert_Some in Hlookup as [[<- <-]|[_ Hlookup]];
    [exists "text"; split; [by vm_compute | apply process_text_file_stamped]|].
  apply lookup_insert_Some in Hlookup as [[<- <-]|[_ Hlookup]];
    [exists "text"; split; [by vm_compute | apply process_text_file_stamped]|].
  apply lookup_insert_Some in Hlookup as [[<- <-]|[_ Hlookup]];
    [exists "text"; split; [by vm_compute | apply process_text_file_stamped]|].
  apply lookup_singleton_Some in Hlookup as [<- <-].
  exists "text". split; [by vm_compute | apply process_text_file_stamped].
Qed.

(** X16. Whatever the suffix, the processor [file_processors] has for it
    never raises and returns at most one document; the document records
    the path as its source, the category of the file name as its category
    and the type of the suffix as its type: pdf, docx (also for ".doc"),
    markdown, or text (for ".txt", ".yaml", ".yml" and ".json"). *)
Theorem file_processors_stamp_documents (sfx file_path : string)
    (processor : string -> outcome (list Document)) :
  file_processors read_pdf read_docx read_text markdown_to_text !! sfx
    = Some processor ->
  exists kind documents,
    kind_of_suffix !! sfx = Some kind
    /\ processor file_path = Returned documents
    /\ (length documents <= 1)%nat
    /\ Forall (fun doc =>
                 metadata doc !! "source" = Some (VStr file_path)
                 /\ metadata doc !! "category"
                    = Some (VStr (_categorize_document (path_name file_path)))
                 /\ metadata doc !! "type" = Some (VStr kind))
              documents.
Proof.
  intros (kind & Hkind & Hall)%file_processors_stamped.
  destruct (Hall file_path) as (documents & Hreturned & Hlen & Hstamp).
  by exists kind, documents.
Qed.

(** *** A directory *)

Variable suffix : string -> string.
Variable split_text : RecursiveCharacterTextSplitter -> string -> list string.
Variable Store : Type.
Variable add : AddRequest -> Store -> outcome Store.

(** The documents one entry of the directory tree contributes. *)
Definition documents_of_entry (entry : string * bool) : list Document :=
  match entry with
  | (file_path, true) =>
      match file_processors read_pdf read_docx read_text markdown_to_text
              !! lower (suffix file_path) with
      | Some processor => documents_or_none (processor file_path)
      | None => []
      end
  | (_, false) => []
  end.

Lemma process_entries_flat_map (entries : list (string * bool)) :
  forall all_documents,
  process_entries read_pdf read_docx read_text markdown_to_text suffix
                  entries all_documents
  = Returned (all_documents ++ flat_map documents_of_entry entries)%list.
Proof.
  induction entries as [|[file_path is_file] entries IH]; intros all_documents;
    cbn [process_entries flat_map documents_of_entry].
  - by rewrite app_nil_r.
  - destruct is_file; [|by rewrite IH].
    destruct (file_processors _ _ _ _ !! lower (suffix file_path))
      as [processor|] eqn:Hlookup; [|by rewrite IH].
    destruct (file_processors_stamped _ _ Hlookup) as (kind & _ & Hall).
    destruct (Hall file_path) as (documents & -> & _).
    by rewrite ret_bind, IH, <- app_assoc.
Qed.

(** X17. Processing a directory never raises.  A directory that does not
    exist leaves the store as it is.  Otherwise the documents of all the
    entries are ingested by one ingestion call, in the order of the
    entries; each of them comes from an entry that is a file and whose
    lower-cased suffix is one of the eight supported ones, and has the
    type of that suffix. *)
Theorem process_directory_ingests_once (directory_exists : bool)
    (entries : list (string * bool)) (store : Store) :
  process_directory read_pdf read_docx read_text markdown_to_text suffix
                    split_text Store add directory_exists entries store
  = (if directory_exists
     then ingest_documents split_text Store add
            (flat_map documents_of_entry entries) store
     else Returned store)
  /\ (exists store',
        process_directory read_pdf read_docx read_text markdown_to_text suffix
                          split_text Store add directory_exists entries store
        = Returned store')
  /\ Forall (fun doc =>
               exists file_path kind,
                 (file_path, true) ∈ entries
                 /\ kind_of_suffix !! lower (suffix file_path) = Some kind
                 /\ metadata doc !! "source" = Some (VStr file_path)
                 /\ metadata doc !! "type" = Some (VStr kind))
            (flat_map documents_of_entry entries).
Proof.
  assert (process_directory read_pdf read_docx read_text markdown_to_text suffix
                    split_text Store add directory_exists entries store
          = (if directory_exists
             then ingest_documents split_text Store add
                    (flat_map documents_of_entry entries) store
             else Returned store)) as Heq.
  { unfold process_directory. destruct directory_exists; [|done].
    cbn [negb]. rewrite process_entries_flat_map, ret_bind, app_nil_l.
    by destruct (flat_map documents_of_entry entries). }
  split; [done|]. split.
  { rewrite Heq. destruct directory_exists; [|by eexists].
    unfold ingest_documents.
    destruct (flat_map documents_of_entry entries); [by eexists|].
    destruct (add _ store); by eexists. }
  apply Forall_forall. intros doc Hdoc.
  apply list_elem_of_In, in_flat_map in Hdoc
    as ([file_path is_file] & Hentry%list_elem_of_In & Hin%list_elem_of_In).
  destruct is_file; [|by apply elem_of_nil in Hin]. cbn [documents_of_entry] in Hin.
  destruct (file_processors _ _ _ _ !! lower (suffix file_path))
    as [processor|] eqn:Hlookup; [|by apply elem_of_nil in Hin].
  destruct (file_processors_stamped _ _ Hlookup) as (kind & Hkind & Hall).
  destruct (Hall file_path) as (documents & Hreturned & _ & Hstamp).
  rewrite Hreturned in Hin. cbn [documents_or_none] in Hin.
  rewrite Forall_forall in Hstamp. destruct (Hstamp doc Hin) as (Hsource & _ & Htype).
  by exists file_path, kind.
Qed.

End Loading.

(** *** The name of a repository *)

(** Whether an ASCII character occurs in a text. *)
Fixpoint has_char (c : ascii) (s : string) : bool :=
  match s with
  | EmptyString => false
  | String d s' => Ascii.eqb d c || has_char c s'
  end.

Lemma has_char_app (c : ascii) (s t : string) :
  has_char c (s +:+ t) = has_char c s || has_char c t.
Proof.
  induction s as [|d s IH]; [done|].
  rewrite app_cons. cbn [has_char]. by rewrite IH, orb_assoc.
Qed.

Lemma split_slash_cons (cur : string) (c : ascii) (s : string) :
  split_aux "/" 0 cur (String c s)
  = if Ascii.eqb c "/"
    then cur :: split_aux "/" 0 "" s
    else split_aux "/" 0 (cur +:+ String c "") s.
Proof.
  cbn [split_aux String.prefix String.length Nat.sub].
  destruct (ascii_dec "/" c) as [<-|Hne]; [by destruct s|].
  destruct (Ascii.eqb_spec c "/"); [congruence | done].
Qed.

Lemma split_slash_pieces (s : string) :
  forall cur,
  has_char "/" cur = false ->
  Forall (fun piece => has_char "/" piece = false) (split_aux "/" 0 cur s).
Proof.
  induction s as [|c s IH]; intros cur Hcur.
  - by repeat constructor.
  - rewrite split_slash_cons. destruct (Ascii.eqb c "/") eqn:Hc.
    + constructor; [done|]. by apply IH.
    + apply IH. rewrite has_char_app, Hcur. cbn [has_char]. by rewrite Hc.
Qed.

Lemma split_aux_not_nil (sep : string) (s : string) :
  forall skip cur, split_aux sep skip cur s <> [].
Proof.
  induction s as [|c s IH]; intros skip cur; cbn [split_aux]; [done|].
  destruct skip; [|apply IH]. destruct (String.prefix sep _); [done | apply IH].
Qed.

Lemma split_slash_trailing (s : string) :
  forall cur, List.last (split_aux "/" 0 cur (s +:+ "/")) "" = "".
Proof.
  induction s as [|c s IH]; intros cur.
  - reflexivity.
  - rewrite app_cons, split_slash_cons. destruct (Ascii.eqb c "/"); [|apply IH].
    specialize (IH ""). pose proof (split_aux_not_nil "/" (s +:+ "/") 0%nat "").
    cbn [List.last]. by destruct (split_aux "/" 0 "" (s +:+ "/")).
Qed.

Lemma replace_aux_chars (old : string) (c : ascii) (s : string) :
  forall skip, has_char c s = false -> has_char c (replace_aux old "" skip s) = false.
Proof.
  induction s as [|d s IH]; intros skip Hs; [done|].
  cbn [has_char] in Hs. apply orb_false_iff in Hs as [Hd Hs].
  cbn [replace_aux]. destruct skip; [|by apply IH].
  destruct (String.prefix old _); [by apply IH|].
  cbn [has_char]. by rewrite Hd, IH.
Qed.

Lemma replace_absent (old new s : string) :
  contains old s = false -> replace old new s = s.
Proof.
  unfold replace. induction s as [|c s IH]; [done|].
  cbn [contains replace_aux]. intros [Hprefix Hrest]%orb_false_iff.
  by rewrite Hprefix, IH.
Qed.

(** X18. The name given to a repository never contains a slash.  It is
    the last segment of the URL when that segment does not contain
    ".git", and it is empty when the URL ends with a slash. *)
Theorem repo_name_of_url (repo_url : string) :
  has_char "/" (repo_name_of repo_url) = false
  /\ (contains ".git" (List.last (split "/" repo_url) "") = false ->
      repo_name_of repo_url = List.last (split "/" repo_url) "")
  /\ repo_name_of (repo_url +:+ "/") = "".
Proof.
  unfold repo_name_of. split; [|split].
  - apply replace_aux_chars.
    pose proof (split_slash_pieces repo_url "" eq_refl) as Hpieces.
    unfold split. induction Hpieces as [|piece pieces Hpiece _ IH]; [done|].
    destruct pieces; [done | apply IH].
  - apply replace_absent.
  - unfold split. by rewrite split_slash_trailing.
Qed.

(** *** A repository *)

Section Repository.
Context `{PyStr}.

Variable read_text : string -> outcome string.
Variable markdown_to_text : string -> outcome string.
Variable clone_exists : string -> bool.
Variable git_pull : string -> outcome unit.
Variable git_clone : string -> string -> outcome unit.
Variable rglob : string -> string -> list string.
Variable st_size : string -> outcome Z.

(** A document of a repository: it names the repository and its URL, and
    it is either a markdown document, or a configuration document read
    from a file of less than 50000 bytes. *)
Definition from_repository (repo_url : string) (doc : Document) : Prop :=
  metadata doc !! "repo" = Some (VStr (repo_name_of repo_url))
  /\ metadata doc !! "repo_url" = Some (VStr repo_url)
  /\ ((metadata doc !! "type" = Some (VStr "markdown")
       /\ metadata doc !! "file_type" = None)
      \/ (metadata doc !! "type" = Some (VStr "text")
          /\ metadata doc !! "file_type" = Some (VStr "configuration")
          /\ exists file_path size,
               metadata doc !! "source" = Some (VStr file_path)
               /\ st_size file_path = Returned size /\ size < 50000)).

Lemma markdown_files_loop_invariant (repo_url : string) (files : list string) :
  forall documents,
  Forall (from_repository repo_url) documents ->
  Forall (from_repository repo_url)
         (fst (markdown_files_loop read_text markdown_to_text
                 (repo_name_of repo_url) repo_url files documents)).
Proof.
  induction files as [|file_path files IH]; intros documents Hall;
    cbn [markdown_files_loop]; [done|].
  unfold process_markdown.
  destruct (read_text file_path) as [md_content|e]; cbn [mbind outcome_bind try_except].
  - destruct (markdown_to_text md_content) as [text|e]; cbn [try_except mret outcome_ret].
    + apply IH, Forall_app_2; [done|]. apply Forall_singleton.
      unfold from_repository, tag_repo. cbn [metadata].
      split; [by simplify_map_eq|]. split; [by simplify_map_eq|].
      left. split; by simplify_map_eq.
    + apply IH. by rewrite fmap_nil, app_nil_r.
  - apply IH. by rewrite fmap_nil, app_nil_r.
Qed.

Lemma configuration_files_loop_invariant (repo_url : string)
    (files : list string) :
  forall documents,
  Forall (from_repository repo_url) documents ->
  Forall (from_repository repo_url)
         (fst (configuration_files_loop read_text st_size
                 (repo_name_of repo_url) repo_url files documents)).
Proof.
  induction files as [|file_path files IH]; intros documents Hall;
    cbn [configuration_files_loop]; [done|].
  destruct (st_size file_path) as [size|e] eqn:Hsize; [|done].
  destruct (Z.ltb_spec size 50000) as [Hsmall|Hlarge]; [|by apply IH].
  unfold process_text_file.
  destruct (read_text file_path) as [content|e]; cbn [mbind outcome_bind try_except].
  - apply IH, Forall_app_2; [done|]. apply Forall_singleton.
    unfold from_repository, tag_configuration, tag_repo. cbn [metadata].
    split; [by simplify_map_eq|]. split; [by simplify_map_eq|].
    right. split; [by simplify_map_eq|]. split; [by simplify_map_eq|].
    exists file_path, size. split; [by simplify_map_eq | done].
  - apply IH. by rewrite fmap_nil, app_nil_r.
Qed.

Lemma configuration_extensions_loop_invariant (repo_url : string)
    (extensions : list string) :
  forall documents,
  Forall (from_repository repo_url) documents ->
  Forall (from_repository repo_url)
         (fst (configuration_extensions_loop read_text rglob st_size
                 (repo_name_of repo_url) repo_url extensions documents)).
Proof.
  induction extensions as [|ext extensions IH]; intros documents Hall;
    cbn [configuration_extensions_loop]; [done|].
  pose proof (configuration_files_loop_invariant repo_url
                (rglob (repo_name_of repo_url) ("*" +:+ ext)) documents Hall)
    as Hfiles.
  destruct (configuration_files_loop _ _ _ _ _ _) as [documents' [e|]];
    [done | by apply IH].
Qed.

(** X19. Every document gathered from a repository names the repository
    and its URL in its metadata; it is either a markdown document or a
    configuration document, and a configuration document was read from a
    file of less than 50000 bytes.  When updating an existing clone fails,
    or when cloning fails, no document is gathered. *)
Theorem github_repo_documents (repo_url : string) :
  Forall (from_repository repo_url)
         (process_github_repo read_text markdown_to_text clone_exists git_pull
                              git_clone rglob st_size repo_url)
  /\ (forall e,
        clone_exists (repo_name_of repo_url) = true ->
        git_pull (repo_name_of repo_url) = Raised e ->
        process_github_repo read_text markdown_to_text clone_exists git_pull
                            git_clone rglob st_size repo_url = [])
  /\ (forall e,
        clone_exists (repo_name_of repo_url) = false ->
        git_clone repo_url (repo_name_of repo_url) = Raised e ->
        process_github_repo read_text markdown_to_text clone_exists git_pull
                            git_clone rglob st_size repo_url = []).
Proof.
  unfold process_github_repo, github_repo_progress. cbn zeta.
  split; [|split].
  - destruct (if clone_exists _ then _ else _) as [[]|e]; [|by constructor].
    pose proof (markdown_files_loop_invariant repo_url
                  (rglob (repo_name_of repo_url) "*.md") [] (Forall_nil_2 _))
      as Hmarkdown.
    destruct (markdown_files_loop _ _ _ _ _ _) as [documents [e|]]; [done|].
    by apply configuration_extensions_loop_invariant.
  - by intros e -> ->.
  - by intros e -> ->.
Qed.

End Repository.

(** *** Runs on example files *)

(** A small file system: what the decoders give for its files. *)
Definition example_read_text (file_path : string) : outcome string :=
  if String.eqb file_path "docs/README.MD" then Returned "# Deploy guide"
  else if String.eqb file_path "docs/notes.txt" then Returned "Rotate the keys."
  else if String.eqb file_path "repo/README.md" then Returned "# Deploy guide"
  else if String.eqb file_path "repo/ci.yml" then Returned "on: push"
  else if String.eqb file_path "repo/lock.json" then Returned "{}"
  else Raised ValueError.

Definition example_read_pdf (file_path : string) : outcome (list (outcome string)) :=
  if String.eqb file_path "docs/resume.pdf"
  then Returned [Returned "Moses Omondi"; Returned "DevSecOps engineer"]
  else if String.eqb file_path "docs/scan.pdf"
  then Returned [Returned "Certificate"; Raised ValueError]
  else Raised ValueError.

Definition example_read_docx (file_path : string) : outcome (list string) :=
  if String.eqb file_path "docs/plan.doc"
  then Returned ["Project plan"; "Milestones"]
  else Raised ValueError.

Definition example_markdown_to_text (md_content : string) : outcome string :=
  if String.eqb md_content "# Deploy guide" then Returned "Deploy guide"
  else Returned md_content.

Definition example_suffix (file_path : string) : string :=
  if String.eqb file_path "docs/README.MD" then ".MD"
  else if String.eqb file_path "docs/notes.txt" then ".txt"
  else if String.eqb file_path "docs/resume.pdf" then ".pdf"
  else if String.eqb file_path "docs/scan.pdf" then ".pdf"
  else if String.eqb file_path "docs/plan.doc" then ".doc"
  else if String.eqb file_path "docs/logo.png" then ".png"
  else "".

Lemma chunks_carry_document_metadata_witness :
  exists doc,
    doc ∈ [rbac_document; pipeline_document]
    /\ metadata pipeline_document = metadata doc
    /\ page_content pipeline_document
       ∈ single_chunk text_splitter (page_content doc).
Proof.
  destruct (chunks_carry_document_metadata single_chunk
              [rbac_document; pipeline_document]) as (_ & _ & _ & Hparent).
  by apply (Hparent 1%nat).
Defined.

Lemma process_pdf_all_pages_or_nothing_witness :
  @process_pdf ascii_str example_read_pdf "docs/resume.pdf"
  = Returned
      [ {| page_content := "Moses Omondi" +:+ esc_n +:+ "DevSecOps engineer"
                           +:+ esc_n;
           metadata :=
             {[ "source" := VStr "docs/resume.pdf";
                "type" := VStr "pdf";
                "category" := VStr "professional_profile";
                "pages" := VInt 2 ]} |} ]
  /\ @process_pdf ascii_str example_read_pdf "docs/scan.pdf" = Returned [].
Proof.
  split.
  - destruct (@process_pdf_all_pages_or_nothing ascii_str example_read_pdf
                "docs/resume.pdf") as (Hall & _).
    by apply (Hall ["Moses Omondi"; "DevSecOps engineer"]).
  - destruct (@process_pdf_all_pages_or_nothing ascii_str example_read_pdf
                "docs/scan.pdf") as (_ & Hpage & _).
    apply (Hpage [Returned "Certificate"; Raised ValueError] ValueError);
      [reflexivity|]. apply list_elem_of_further, list_elem_of_here.
Defined.

Lemma file_processors_stamp_documents_witness :
  exists kind documents,
    kind_of_suffix !! ".doc" = Some kind
    /\ @process_docx ascii_str example_read_docx "docs/plan.doc"
       = Returned documents
    /\ (length documents <= 1)%nat
    /\ Forall (fun doc =>
                 metadata doc !! "source" = Some (VStr "docs/plan.doc")
                 /\ metadata doc !! "category"
                    = Some (VStr (@_categorize_document ascii_str
                                    (@path_name ascii_str "docs/plan.doc")))
                 /\ metadata doc !! "type" = Some (VStr kind))
              documents.
Proof.
  apply (@file_processors_stamp_documents ascii_str example_read_pdf
           example_read_docx example_read_text example_markdown_to_text
           ".doc" "docs/plan.doc").
  vm_compute. reflexivity.
Defined.

(** A directory with a markdown file whose suffix is in upper case, a
    sub-directory, a picture, a PDF that cannot be read to the end, and a
    text file: the markdown file and the text file are ingested by one
    call, as doc_0 and doc_1. *)
Lemma process_directory_ingests_once_witness :
  @process_directory ascii_str example_read_pdf example_read_docx
     example_read_text example_markdown_to_text example_suffix single_chunk
     _ recording_add true
     [("docs/README.MD", true); ("docs/archive", false); ("docs/logo.png", true);
      ("docs/scan.pdf", true); ("docs/notes.txt", true)] []
  = Returned
      [ {| add_documents := ["Deploy guide"; "Rotate the keys."];
           add_metadatas :=
             [ {[ "source" := VStr "docs/README.MD"; "type" := VStr "markdown";
                  "category" := VStr "general";
                  "original_format" := VStr "markdown" ]};
               {[ "source" := VStr "docs/notes.txt"; "type" := VStr "text";
                  "category" := VStr "general" ]} ];
           add_ids := ["doc_0"; "doc_1"] |} ].
Proof.
  destruct (@process_directory_ingests_once ascii_str example_read_pdf
              example_read_docx example_read_text example_markdown_to_text
              example_suffix single_chunk _ recording_add true
              [("docs/README.MD", true); ("docs/archive", false);
               ("docs/logo.png", true); ("docs/scan.pdf", true);
               ("docs/notes.txt", true)] []) as [-> _].
  vm_compute. reflexivity.
Defined.

Lemma repo_name_of_url_witness :
  repo_name_of "https://github.com/Moses-Omondi/moses-ai-assistant"
    = "moses-ai-assistant"
  /\ repo_name_of "https://github.com/Moses-Omondi/moses-ai-assistant.git"
     = "moses-ai-assistant"
  /\ repo_name_of "https://github.com/Moses-Omondi/moses-omondi.github.io"
     = "moses-omondihub.io".
Proof.
  split; [|split; vm_compute; reflexivity].
  destruct (repo_name_of_url "https://github.com/Moses-Omondi/moses-ai-assistant")
    as (_ & -> & _); vm_compute; reflexivity.
Defined.

(** A clone with a README, a workflow file of 120 bytes and a lock file
    of exactly 50000 bytes; updating the clone of another repository
    fails. *)
Definition example_clone_exists (repo_name : string) : bool := true.

Definition example_git_pull (repo_name : string) : outcome unit :=
  if String.eqb repo_name "moses-ai-assistant" then Returned tt
  else Raised (StoreError "could not resolve host").

Definition example_git_clone (repo_url repo_name : string) : outcome unit :=
  Returned tt.

Definition example_rglob (repo_name pattern : string) : list string :=
  if String.eqb pattern "*.md" then ["repo/README.md"]
  else if String.eqb pattern "*.yml" then ["repo/ci.yml"]
  else if String.eqb pattern "*.json" then ["repo/lock.json"]
  else [].

Definition example_st_size (file_path : string) : outcome Z :=
  if String.eqb file_path "repo/ci.yml" then Returned 120
  else if String.eqb file_path "repo/lock.json" then Returned 50000
  else Raised ValueError.

Lemma github_repo_documents_witness :
  @process_github_repo ascii_str example_read_text example_markdown_to_text
     example_clone_exists example_git_pull example_git_clone example_rglob
     example_st_size "https://github.com/Moses-Omondi/portfolio.git" = []
  /\ (fun doc => metadata doc !! "source")
       <$> @process_github_repo ascii_str example_read_text
             example_markdown_to_text example_clone_exists example_git_pull
             example_git_clone example_rglob example_st_size
             "https://github.com/Moses-Omondi/moses-ai-assistant.git"
     = [Some (VStr "repo/README.md"); Some (VStr "repo/ci.yml")].
Proof.
  split; [|vm_compute; reflexivity].
  destruct (@github_repo_documents ascii_str example_read_text
              example_markdown_to_text example_clone_exists example_git_pull
              example_git_clone example_rglob example_st_size
              "https://github.com/Moses-Omondi/portfolio.git") as (_ & Hpull & _).
  by apply (Hpull (StoreError "could not resolve host")).
Defined.

End DocumentProcessorMore.

(** ** The query service *)

Module ApiSpec.

Import Http Api PyFacts ExcFacts.

(** X20. The content of a source is the content of the context when that
    has at most 500 characters, and its first 500 characters followed by
    three dots otherwise, 503 characters in all; characters are counted,
    not bytes.  The metadata and the relevance score are those of the
    context. *)
Theorem source_of_truncates (ctx : Rag.RetrievedContext) :
  (len (source_content (source_of ctx)) <= 503)%nat
  /\ ((len (Rag.content ctx) <= 500)%nat ->
      source_content (source_of ctx) = Rag.content ctx)
  /\ ((500 < len (Rag.content ctx))%nat ->
      source_content (source_of ctx) = slice_to 500 (Rag.content ctx) +:+ "..."
      /\ len (slice_to 500 (Rag.content ctx)) = 500%nat
      /\ len (source_content (source_of ctx)) = 503%nat
      /\ exists rest,
           Rag.content ctx = slice_to 500 (Rag.content ctx) +:+ rest)
  /\ source_metadata (source_of ctx) = Rag.metadata ctx
  /\ source_relevance_score (source_of ctx) = Rag.relevance_score ctx.
Proof.
  unfold source_of. cbn [source_content source_metadata source_relevance_score].
  destruct (Nat.ltb_spec 500 (len (Rag.content ctx))) as [Hlong|Hshort].
  - assert (len (slice_to 500 (Rag.content ctx)) = 500%nat) as Hcut.
    { rewrite len_slice_to. lia. }
    assert (len (slice_to 500 (Rag.content ctx) +:+ "...") = 503%nat) as Hlen.
    { rewrite len_app, Hcut. reflexivity. }
    split; [lia|]. split; [intros; lia|]. split; [|done].
    intros _. split; [done|]. split; [done|]. split; [done|].
    apply slice_to_prefix.
  - split; [lia|]. split; [done|]. split; [intros; lia | done].
Qed.

Lemma query_sources_used `{PyStr} (collection : Collection) (question : string)
    (n_contexts : Z) (result : Rag.QueryAnswer) :
  Rag.query collection question n_contexts = Returned result ->
  Rag.sources_used result = length (Rag.contexts result)
  /\ Rag.query_text result = question.
Proof.
  unfold Rag.query.
  intros (found & _ & Hrest)%bind_returned.
  by apply bind_returned in Hrest as (context_string & _ & [= <-]).
Qed.

(** The globals after one more successful query that took [elapsed]. *)
Definition counted (elapsed : float) (globals : Globals) : Globals :=
  {| query_count := query_count globals + 1;
     total_response_time := (total_response_time globals + elapsed)%float;
     rag_system := rag_system globals |}.

Definition is_ok {A} (r : response A) : bool :=
  match r with
  | Ok _ => true
  | HTTPException _ _ => false
  end.

Section Handlers.
Context `{PyStr}.

Variable exn_str : exn -> string.

(** X21. A query is refused with status 503 before the startup event has
    run, with status 400 when the question is blank, and with status 500
    when the core raises; a refused query leaves the counters as they
    are.  An accepted query counts as one more query, adds its time to
    the total, and answers with the answer of the core, the number of its
    contexts and, when they are asked for, one source per context. *)
Theorem query_assistant_outcome (elapsed : float) (request : QueryRequest)
    (globals : Globals) :
  (rag_system globals = None ->
   query_assistant exn_str elapsed request globals
   = (HTTPException 503 "RAG system not initialized", globals))
  /\ (forall collection,
        rag_system globals = Some collection ->
        strip (question request) = "" ->
        query_assistant exn_str elapsed request globals
        = (HTTPException 400 "Question cannot be empty", globals))
  /\ (forall collection e,
        rag_system globals = Some collection ->
        strip (question request) <> "" ->
        Rag.query collection (question request) (context_count request)
          = Raised e ->
        query_assistant exn_str elapsed request globals
        = (HTTPException 500 ("Query processing failed: " +:+ exn_str e),
           globals))
  /\ (forall collection result,
        rag_system globals = Some collection ->
        strip (question request) <> "" ->
        Rag.query collection (question request) (context_count request)
          = Returned result ->
        exists body,
          query_assistant exn_str elapsed request globals
          = (Ok body, counted elapsed globals)
          /\ answer body = Rag.answer result
          /\ processing_time body = elapsed
          /\ sources_used body = length (Rag.contexts result)
          /\ sources body
             = (if include_sources request
                then Some (source_of <$> Rag.contexts result)
                else None)
          /\ (forall listed, sources body = Some listed ->
                length listed = sources_used body)).
Proof.
  unfold query_assistant. split; [by intros ->|]. split; [|split].
  - intros collection -> ->. by rewrite String.eqb_refl.
  - intros collection e -> Hq ->. by apply String.eqb_neq in Hq as ->.
  - intros collection result Hrag Hq Hresult. unfold counted.
    rewrite Hrag, Hresult.
    apply String.eqb_neq in Hq as ->.
    destruct (query_sources_used _ _ _ _ Hresult) as [Hused _].
    eexists. split; [reflexivity|].
    cbn [answer processing_time sources_used sources]. rewrite Hused.
    repeat split. intros listed.
    destruct (include_sources request); [|done].
    intros [= <-]. by rewrite length_fmap.
Qed.

(** The responses to a series of queries, each with the time it takes,
    and the globals after them. *)
Fixpoint serve (requests : list (float * QueryRequest)) (globals : Globals)
  : list (response QueryResponse) * Globals :=
  match requests with
  | [] => ([], globals)
  | (elapsed, request) :: rest =>
      let '(r, globals') := query_assistant exn_str elapsed request globals in
      let '(rs, globals'') := serve rest globals' in
      (r :: rs, globals'')
  end.

Lemma query_assistant_step (elapsed : float) (request : QueryRequest)
    (globals : Globals) :
  exists r,
    query_assistant exn_str elapsed request globals
    = (r, if is_ok r then counted elapsed globals else globals).
Proof.
  unfold query_assistant, counted.
  destruct (rag_system globals) as [collection|] eqn:Hrag;
    [|eexists (HTTPException _ _); reflexivity].
  destruct (String.eqb _ _); [eexists (HTTPException _ _); reflexivity|].
  destruct (Rag.query _ _ _); [|eexists (HTTPException _ _); reflexivity].
  eexists (Ok _). reflexivity.
Qed.

(** X22. After any series of queries, the query counter has grown by the
    number of queries that were answered, the refused ones not counted;
    there is one response per query, and the assistant the service talks
    to is the same as before. *)
Theorem query_count_counts_answers (requests : list (float * QueryRequest))
    (globals : Globals) :
  query_count (snd (serve requests globals))
  = query_count globals
    + Z.of_nat (length (List.filter is_ok (fst (serve requests globals))))
  /\ length (fst (serve requests globals)) = length requests
  /\ rag_system (snd (serve requests globals)) = rag_system globals.
Proof.
  revert globals. induction requests as [|[elapsed request] requests IH];
    intros globals; cbn [serve].
  - cbn [fst snd List.filter length]. repeat split. lia.
  - destruct (query_assistant_step elapsed request globals) as [r ->].
    specialize (IH (if is_ok r then counted elapsed globals else globals)).
    destruct (serve requests _) as [rs globals''].
    cbn [fst snd List.filter length] in *.
    destruct IH as (Hcount & Hlen & Hrag). rewrite Hcount, Hlen, Hrag.
    destruct (is_ok r); cbn [length counted query_count rag_system];
      repeat split; lia.
Qed.

(** X23. Stripping a text that begins with an ASCII character other
    than white space leaves that character, so the result is not empty.
    For every [strip] of which this holds, the three specialised
    endpoints never refuse a question as empty: the prefix they put
    before the question begins with a letter and makes it non-blank, also
    when the question itself is blank. *)
Theorem specialised_endpoints_accept_blank
    (Hstrip : forall c s, (nat_of_ascii c < 128)%nat -> is_space c = false ->
                          strip (String c s) <> "")
    (elapsed : float) (request : QueryRequest) (globals : Globals)
    (detail : string) :
  fst (query_technical exn_str elapsed request globals) <> HTTPException 400 detail
  /\ fst (query_career exn_str elapsed request globals) <> HTTPException 400 detail
  /\ fst (query_projects exn_str elapsed request globals) <> HTTPException 400 detail.
Proof.
  assert (forall c prefix,
            (nat_of_ascii c < 128)%nat -> is_space c = false ->
            fst (query_assistant exn_str elapsed
                   (with_prefix (String c prefix) request) globals)
            <> HTTPException 400 detail) as Hprefix.
  { intros c prefix Hascii Hc. unfold query_assistant.
    destruct (rag_system globals); [|done].
    cbn [question with_prefix]. rewrite app_cons.
    pose proof (Hstrip c (prefix +:+ question request) Hascii Hc) as Hne.
    apply String.eqb_neq in Hne as ->.
    by destruct (Rag.query _ _ _). }
  repeat split; apply Hprefix; (reflexivity || (vm_compute; lia)).
Qed.

(** X24. Once the startup event has run, the health check never fails: it
    always answers "healthy" with the knowledge base "active", also when
    the store cannot be counted, in which case it reports 0 documents. *)
Theorem health_check_always_healthy (globals : Globals)
    (collection : Collection) :
  rag_system globals = Some collection ->
  exists n,
    health_check exn_str globals
    = Ok {| status := "healthy"; version := "1.0.0";
            knowledge_base_status := "active"; total_documents := n |}
    /\ (forall e, coll_count collection = Raised e -> n = 0)
    /\ (forall count, coll_count collection = Returned count ->
          n = count \/ n = 0).
Proof.
  intros Hrag. unfold health_check.
  rewrite Hrag, RagMore.knowledge_base_info_cases. eexists. split; [reflexivity|].
  destruct (coll_count collection) as [count|e].
  - split; [done|]. intros ? [= <-].
    destruct (coll_get collection 100) as [sample|e]; [|by right].
    destruct (Rag.sorted _); [by left | by right].
  - split; [done|]. by intros.
Qed.

End Handlers.

(** *** Runs of the service *)

Definition example_exn_str (e : exn) : string := "error".

(** A context of 501 characters, each of two bytes, and a context of 300
    such characters. *)
Definition long_context : Rag.RetrievedContext :=
  {| Rag.content := String.concat "" (replicate 501 "é");
     Rag.metadata := ∅; Rag.relevance_score := 0.5%float |}.

Definition accented_context : Rag.RetrievedContext :=
  {| Rag.content := String.concat "" (replicate 300 "é");
     Rag.metadata := ∅; Rag.relevance_score := 0.5%float |}.

Lemma source_of_truncates_witness :
  (source_content (source_of long_context)
     = slice_to 500 (Rag.content long_context) +:+ "..."
   /\ len (slice_to 500 (Rag.content long_context)) = 500%nat
   /\ len (source_content (source_of long_context)) = 503%nat
   /\ exists rest,
        Rag.content long_context
        = slice_to 500 (Rag.content long_context) +:+ rest)
  /\ source_content (source_of accented_context) = Rag.content accented_context.
Proof.
  split.
  - destruct (source_of_truncates long_context) as (_ & _ & Hlong & _).
    apply Hlong. vm_compute. lia.
  - destruct (source_of_truncates accented_context) as (_ & Hshort & _).
    apply Hshort. vm_compute. lia.
Defined.

Definition started : Globals :=
  {| query_count := 4; total_response_time := 2.5%float;
     rag_system := Some RagSpec.example_collection |}.

Definition blank_request : QueryRequest :=
  {| question := "   "; context_count := 5; include_sources := true |}.

Lemma query_assistant_outcome_witness :
  @query_assistant ascii_str example_exn_str 0.25%float blank_request started
  = (HTTPException 400 "Question cannot be empty", started).
Proof.
  destruct (@query_assistant_outcome ascii_str example_exn_str 0.25%float
              blank_request started) as (_ & Hblank & _).
  by apply (Hblank RagSpec.example_collection).
Defined.

Lemma ascii_strip_keeps_text (c : ascii) (s : string) :
  (nat_of_ascii c < 128)%nat -> is_space c = false ->
  ascii_strip (String c s) <> "".
Proof.
  intros _ Hc. unfold ascii_strip. cbn [lstrip]. rewrite Hc. cbn [rstrip].
  rewrite Hc. by destruct (rstrip s).
Qed.

Lemma specialised_endpoints_accept_blank_witness :
  fst (@query_technical ascii_str example_exn_str 0.25%float blank_request started)
    <> HTTPException 400 "Question cannot be empty"
  /\ fst (@query_career ascii_str example_exn_str 0.25%float blank_request started)
     <> HTTPException 400 "Question cannot be empty"
  /\ fst (@query_projects ascii_str example_exn_str 0.25%float blank_request started)
     <> HTTPException 400 "Question cannot be empty".
Proof.
  apply (@specialised_endpoints_accept_blank ascii_str example_exn_str
           ascii_strip_keeps_text).
Defined.

Lemma health_check_always_healthy_witness :
  exists n,
    health_check example_exn_str
      {| query_count := 0; total_response_time := 0%float;
         rag_system := Some (failing (StoreError "connection refused")) |}
    = Ok {| status := "healthy"; version := "1.0.0";
            knowledge_base_status := "active"; total_documents := n |}
    /\ (forall e, coll_count (failing (StoreError "connection refused")) = Raised e ->
          n = 0)
    /\ (forall count,
          coll_count (failing (StoreError "connection refused")) = Returned count ->
          n = count \/ n = 0).
Proof.
  by apply (health_check_always_healthy example_exn_str
              {| query_count := 0; total_response_time := 0%float;
                 rag_system := Some (failing (StoreError "connection refused")) |}
              (failing (StoreError "connection refused"))).
Defined.

End ApiSpec.

(** ** The minimal service *)

Module SimpleApiSpec.

Import SimpleApi PyFacts.

(** The decision list of [generate_expert_response] as an ordered table:
    each canned answer with the keywords that select it. *)
Definition expert_rules : list (string * list string) :=
  [ (devsecops_answer, ["devsecops"; "ci/cd"; "pipeline"; "security"]);
    (kubernetes_answer, ["kubernetes"; "k8s"; "container"]);
    (cloud_answer, ["aws"; "cloud"; "lambda"; "ec2"]);
    (ai_answer, ["ai"; "ml"; "machine learning"; "model"]) ].

(** The general answer to a question. *)
Definition general_answer (question : string) : string :=
  general_answer_head +:+ Rag.dquote +:+ question +:+ Rag.dquote
  +:+ general_answer_tail.

Section WithStrings.
Context `{PyStr}.

Definition answer_by_rules (question : string) : string :=
  match List.find (RagMore.keywords_match (lower question)) expert_rules with
  | Some rule => fst rule
  | None => general_answer question
  end.

Lemma generate_expert_response_refines (question : string) :
  generate_expert_response question = answer_by_rules question.
Proof.
  unfold generate_expert_response, answer_by_rules, expert_rules,
    RagMore.keywords_match.
  cbn [List.find snd fst].
  repeat (match goal with |- context [any_in ?ks ?s] =>
            destruct (any_in ks s); [reflexivity|] end).
  reflexivity.
Qed.

(** X25. The minimal service answers with the canned answer of the first
    of four keyword groups, in the order DevSecOps, Kubernetes, cloud, AI,
    that has a keyword occurring in the lower-cased question, whatever
    else the question says; when no group has one, it answers with the
    general answer, which quotes the question. *)
Theorem generate_expert_response_first_match (question : string) :
  generate_expert_response question = answer_by_rules question
  /\ (forall i rule,
        expert_rules !! i = Some rule ->
        RagMore.keywords_match (lower question) rule = true ->
        (forall j earlier, (j < i)%nat -> expert_rules !! j = Some earlier ->
           RagMore.keywords_match (lower question) earlier = false) ->
        generate_expert_response question = fst rule)
  /\ ((forall rule, In rule expert_rules ->
         RagMore.keywords_match (lower question) rule = false) ->
      generate_expert_response question = general_answer question
      /\ contains (Rag.dquote +:+ question +:+ Rag.dquote)
                  (generate_expert_response question) = true).
Proof.
  split; [apply generate_expert_response_refines|].
  split.
  { intros i rule Hi Hm Hbefore. rewrite generate_expert_response_refines.
    unfold answer_by_rules.
    by rewrite (DocumentProcessorSpec.find_first_match _ _ i rule Hi Hm Hbefore). }
  intros Hnone.
  assert (generate_expert_response question = general_answer question) as ->.
  { rewrite generate_expert_response_refines. unfold answer_by_rules.
    by rewrite DocumentProcessorSpec.find_no_match. }
  split; [done|]. apply contains_app.
  exists general_answer_head, general_answer_tail.
  unfold general_answer. by rewrite !string_app_assoc.
Qed.

End WithStrings.

(** The word "container" holds the keyword of the second group, and also
    "ai", a keyword of the fourth. *)
Lemma generate_expert_response_first_match_witness :
  @generate_expert_response ascii_str "How do I harden Container images?"
  = kubernetes_answer.
Proof.
  destruct (@generate_expert_response_first_match ascii_str
              "How do I harden Container images?") as (_ & Hfirst & _).
  apply (Hfirst 1%nat (kubernetes_answer, ["kubernetes"; "k8s"; "container"])).
  - reflexivity.
  - vm_compute. reflexivity.
  - intros [|j] earlier Hj Hearlier; [|lia].
    injection Hearlier as <-. vm_compute. reflexivity.
Defined.

End SimpleApiSpec.
